(** * haltech-docs-scraper: a shallow embedding of the scraper's pure helpers
    (URL normalisation, scope filter, image file names, article
    classification), of the per-article retry loop of the fetch scheduler,
    of image rehosting, of content extraction and of the Markdown converter.

    Python strings are modelled as [string] over code points 0..255.
    [urllib.parse] is modelled as in CPython 3.11.1 - 3.11.3 (scheme must
    start with an ASCII letter; bracketed hosts are only checked for
    balanced brackets).  A [ValueError] raised by the URL parser is [None]. *)

From Stdlib Require Import Bool Arith Lia List ZArith.
From Stdlib Require Import Strings.String Strings.Ascii Numbers.DecimalString.
Import ListNotations.
Open Scope string_scope.
Open Scope nat_scope.

(* ------------------------------------------------------------------ *)
(** ** Python string primitives *)

Module Py.

Definition code (c : ascii) : nat := nat_of_ascii c.

Definition char_eqb (a b : ascii) : bool := Ascii.eqb a b.

(** [str.lower] on code points 0..255: A-Z, U+00C0-U+00D6, U+00D8-U+00DE. *)
Definition lower_char (c : ascii) : ascii :=
  let n := code c in
  if ((65 <=? n) && (n <=? 90)) || ((192 <=? n) && (n <=? 222) && negb (n =? 215))
  then ascii_of_nat (n + 32) else c.

Fixpoint lower (s : string) : string :=
  match s with
  | EmptyString => EmptyString
  | String c s' => String (lower_char c) (lower s')
  end.

(** [str.isspace] (and [re]'s [\s]) on code points 0..255. *)
Definition is_space (c : ascii) : bool :=
  let n := code c in
  ((9 <=? n) && (n <=? 13)) || ((28 <=? n) && (n <=? 32)) || (n =? 133) || (n =? 160).

(** [c in s] for a one-character needle. *)
Fixpoint has_char (c : ascii) (s : string) : bool :=
  match s with
  | EmptyString => false
  | String d s' => char_eqb c d || has_char c s'
  end.

(** [p in s]. *)
Fixpoint contains (p s : string) : bool :=
  prefix p s || match s with
                | EmptyString => false
                | String _ s' => contains p s'
                end.

(** [s.startswith(p)] *)
Definition startswith (s p : string) : bool := prefix p s.

(** [s.endswith(p)] *)
Fixpoint endswith (s p : string) : bool :=
  String.eqb s p || match s with
                    | EmptyString => false
                    | String _ s' => endswith s' p
                    end.

(** [s.find(c)] for a one-character needle, [-1] as [None]. *)
Fixpoint find_char (c : ascii) (s : string) : option nat :=
  match s with
  | EmptyString => None
  | String d s' => if char_eqb c d then Some 0
                   else option_map S (find_char c s')
  end.

(** [s.rfind(c)] *)
Fixpoint rfind_char (c : ascii) (s : string) : option nat :=
  match s with
  | EmptyString => None
  | String d s' =>
      match rfind_char c s' with
      | Some i => Some (S i)
      | None => if char_eqb c d then Some 0 else None
      end
  end.

(** [s[:n]] and [s[n:]] for [n >= 0]. *)
Fixpoint take (n : nat) (s : string) : string :=
  match n, s with
  | 0, _ => EmptyString
  | S _, EmptyString => EmptyString
  | S n', String c s' => String c (take n' s')
  end.
Fixpoint drop (n : nat) (s : string) : string :=
  match n, s with
  | 0, _ => s
  | S _, EmptyString => EmptyString
  | S n', String _ s' => drop n' s'
  end.

(** [s.split(c, 1)] when [c in s]: the parts before and after the first [c]. *)
Fixpoint split_once (c : ascii) (s : string) : option (string * string) :=
  match s with
  | EmptyString => None
  | String d s' =>
      if char_eqb c d then Some (EmptyString, s')
      else match split_once c s' with
           | Some (a, b) => Some (String d a, b)
           | None => None
           end
  end.

(** [s.split(c)] *)
Fixpoint split (c : ascii) (s : string) : list string :=
  match s with
  | EmptyString => [EmptyString]
  | String d s' =>
      if char_eqb c d then EmptyString :: split c s'
      else match split c s' with
           | a :: rest => String d a :: rest
           | [] => [String d EmptyString]
           end
  end.

(** [sep.join(xs)] *)
Fixpoint join (sep : string) (xs : list string) : string :=
  match xs with
  | [] => EmptyString
  | [x] => x
  | x :: rest => x ++ sep ++ join sep rest
  end.

(** [s.replace(c, '')] for a one-character [c]. *)
Fixpoint remove_char (c : ascii) (s : string) : string :=
  match s with
  | EmptyString => EmptyString
  | String d s' => if char_eqb c d then remove_char c s' else String d (remove_char c s')
  end.

(** [s.lstrip(chars)] for a character class given as a predicate. *)
Fixpoint lstrip_by (f : ascii -> bool) (s : string) : string :=
  match s with
  | EmptyString => EmptyString
  | String c s' => if f c then lstrip_by f s' else s
  end.

Fixpoint rev (s : string) : string :=
  match s with
  | EmptyString => EmptyString
  | String c s' => rev s' ++ String c EmptyString
  end.

Definition rstrip_by (f : ascii -> bool) (s : string) : string :=
  rev (lstrip_by f (rev s)).

Definition strip_by (f : ascii -> bool) (s : string) : string :=
  rstrip_by f (lstrip_by f s).

(** [s.strip()] *)
Definition strip (s : string) : string := strip_by is_space s.

(** [s.replace(old, new)]: non-overlapping, left to right; an empty [old]
    inserts [new] around every character. [skip] counts the characters of
    the current match still to be consumed. *)
Fixpoint replace_aux (old new : string) (skip : nat) (s : string) : string :=
  match s with
  | EmptyString => EmptyString
  | String c s' =>
      match skip with
      | S k => replace_aux old new k s'
      | 0 => if prefix old s
             then new ++ replace_aux old new (String.length old - 1) s'
             else String c (replace_aux old new 0 s')
      end
  end.

Fixpoint replace_empty (new s : string) : string :=
  match s with
  | EmptyString => new
  | String c s' => new ++ String c (replace_empty new s')
  end.

Definition replace (s old new : string) : string :=
  match old with
  | EmptyString => replace_empty new s
  | _ => replace_aux old new 0 s
  end.

(** [str(n)] for an [int]. *)
Definition str_of_Z (z : Z) : string := NilEmpty.string_of_int (Z.to_int z).

(** The double quote character. *)
Definition dq : string := String (ascii_of_nat 34) EmptyString.

(** Python truthiness of a string. *)
Definition truthy (s : string) : bool := negb (String.eqb s EmptyString).

Definition mem (x : string) (xs : list string) : bool :=
  existsb (String.eqb x) xs.

End Py.

Import Py.

(* ------------------------------------------------------------------ *)
(** ** [urllib.parse]: [urlsplit], [urlparse], [urlunsplit],
    [urlunparse] and [urljoin] *)

Module Url.

Record SplitResult := {
  s_scheme : string; s_netloc : string; s_path : string;
  s_query : string; s_fragment : string }.

Record ParseResult := {
  p_scheme : string; p_netloc : string; p_path : string;
  p_params : string; p_query : string; p_fragment : string }.

(** [_WHATWG_C0_CONTROL_OR_SPACE] *)
Definition c0_or_space (c : ascii) : bool := code c <=? 32.

(** [_UNSAFE_URL_BYTES_TO_REMOVE = ['\t', '\r', '\n']] *)
Definition remove_unsafe (s : string) : string :=
  remove_char "010"%char (remove_char "013"%char (remove_char "009"%char s)).

Definition is_ascii_alpha (c : ascii) : bool :=
  let n := code c in ((65 <=? n) && (n <=? 90)) || ((97 <=? n) && (n <=? 122)).

Definition is_digit (c : ascii) : bool :=
  let n := code c in (48 <=? n) && (n <=? 57).

(** [scheme_chars]: ASCII letters, digits and [+-.]. *)
Definition is_scheme_char (c : ascii) : bool :=
  is_ascii_alpha c || is_digit c || char_eqb c "+"%char
  || char_eqb c "-"%char || char_eqb c "."%char.

Fixpoint all_chars (f : ascii -> bool) (s : string) : bool :=
  match s with
  | EmptyString => true
  | String c s' => f c && all_chars f s'
  end.

Definition first_is_ascii_alpha (s : string) : bool :=
  match s with String c _ => is_ascii_alpha c | EmptyString => false end.

Definition uses_relative : list string :=
  [""; "ftp"; "http"; "gopher"; "nntp"; "imap"; "wais"; "file"; "https";
   "shttp"; "mms"; "prospero"; "rtsp"; "rtsps"; "rtspu"; "sftp"; "svn";
   "svn+ssh"; "ws"; "wss"].

Definition uses_netloc : list string :=
  [""; "ftp"; "http"; "gopher"; "nntp"; "telnet"; "imap"; "wais"; "file";
   "mms"; "https"; "shttp"; "snews"; "prospero"; "rtsp"; "rtsps"; "rtspu";
   "rsync"; "svn"; "svn+ssh"; "sftp"; "nfs"; "git"; "git+ssh"; "ws"; "wss";
   "itms-services"].

Definition uses_params : list string :=
  [""; "ftp"; "hdl"; "prospero"; "http"; "imap"; "https"; "shttp"; "rtsp";
   "rtsps"; "rtspu"; "sip"; "sips"; "mms"; "sftp"; "tel"].

(** Index of the first character satisfying [f]. *)
Fixpoint find_first (f : ascii -> bool) (s : string) : option nat :=
  match s with
  | EmptyString => None
  | String c s' => if f c then Some 0 else option_map S (find_first f s')
  end.

Definition is_netloc_delim (c : ascii) : bool :=
  char_eqb c "/"%char || char_eqb c "?"%char || char_eqb c "#"%char.

(** [_splitnetloc(url, 2)] *)
Definition splitnetloc (url : string) : string * string :=
  let u := drop 2 url in
  let delim := match find_first is_netloc_delim u with
               | Some i => i
               | None => String.length u
               end in
  (take delim u, drop delim u).

(** [split(c, 1)] if [c] occurs, else the whole string and [''] *)
Definition split_or_empty (c : ascii) (s : string) : string * string :=
  match split_once c s with
  | Some ab => ab
  | None => (s, EmptyString)
  end.

Definition urlsplit (url scheme : string) : option SplitResult :=
  let url := remove_unsafe (lstrip_by c0_or_space url) in
  let scheme := remove_unsafe (strip_by c0_or_space scheme) in
  let '(scheme, url) :=
    match find_char ":"%char url with
    | Some i =>
        if (0 <? i) && first_is_ascii_alpha url
           && all_chars is_scheme_char (take i url)
        then (lower (take i url), drop (S i) url)
        else (scheme, url)
    | None => (scheme, url)
    end in
  let netloc_split :=
    if prefix "//" url then
      let '(netloc, url) := splitnetloc url in
      if xorb (has_char "["%char netloc) (has_char "]"%char netloc)
      then None                                  (* ValueError: Invalid IPv6 URL *)
      else Some (netloc, url)
    else Some (EmptyString, url) in
  match netloc_split with
  | None => None
  | Some (netloc, url) =>
      let '(url, fragment) := split_or_empty "#"%char url in
      let '(url, query) := split_or_empty "?"%char url in
      Some {| s_scheme := scheme; s_netloc := netloc; s_path := url;
              s_query := query; s_fragment := fragment |}
  end.

(** [_splitparams(url)]; [urlparse] calls it only when [';' in url]. *)
Definition splitparams (url : string) : string * string :=
  if has_char "/"%char url then
    match rfind_char "/"%char url with
    | Some j =>
        match find_char ";"%char (drop j url) with
        | Some k => (take (j + k) url, drop (j + k + 1) url)
        | None => (url, EmptyString)
        end
    | None => (url, EmptyString)                 (* not reached *)
    end
  else
    match find_char ";"%char url with
    | Some i => (take i url, drop (S i) url)
    | None => (url, EmptyString)                 (* not reached *)
    end.

Definition urlparse (url scheme : string) : option ParseResult :=
  match urlsplit url scheme with
  | None => None
  | Some r =>
      let '(path, params) :=
        if mem (s_scheme r) uses_params && has_char ";"%char (s_path r)
        then splitparams (s_path r) else (s_path r, EmptyString) in
      Some {| p_scheme := s_scheme r; p_netloc := s_netloc r; p_path := path;
              p_params := params; p_query := s_query r;
              p_fragment := s_fragment r |}
  end.

Definition urlunsplit (scheme netloc url query fragment : string) : string :=
  let url :=
    if truthy netloc
       || (truthy scheme && mem scheme uses_netloc
           && negb (String.eqb (take 2 url) "//"))
    then let url := if truthy url && negb (String.eqb (take 1 url) "/")
                    then "/" ++ url else url in
         "//" ++ netloc ++ url
    else url in
  let url := if truthy scheme then scheme ++ ":" ++ url else url in
  let url := if truthy query then url ++ "?" ++ query else url in
  if truthy fragment then url ++ "#" ++ fragment else url.

Definition urlunparse (r : ParseResult) : string :=
  let url := if truthy (p_params r) then p_path r ++ ";" ++ p_params r
             else p_path r in
  urlunsplit (p_scheme r) (p_netloc r) url (p_query r) (p_fragment r).

(** [ParseResult._replace(fragment='')] *)
Definition drop_fragment (r : ParseResult) : ParseResult :=
  {| p_scheme := p_scheme r; p_netloc := p_netloc r; p_path := p_path r;
     p_params := p_params r; p_query := p_query r; p_fragment := EmptyString |}.

Fixpoint removelast_str (xs : list string) : list string :=
  match xs with
  | [] => []
  | [x] => []
  | x :: rest => x :: removelast_str rest
  end.

Fixpoint last_str (xs : list string) : string :=
  match xs with
  | [] => EmptyString
  | [x] => x
  | _ :: rest => last_str rest
  end.

(** [segments[1:-1] = filter(None, segments[1:-1])] *)
Definition filter_middle (segs : list string) : list string :=
  match segs with
  | [] => []
  | [x] => [x]
  | x :: rest =>
      x :: (filter truthy (removelast_str rest) ++ [last_str rest])%list
  end.

(** The [..] / [.] resolution loop of [urljoin]; the accumulator is reversed. *)
Definition resolve (segs : list string) : list string :=
  let acc := fold_left
    (fun acc seg =>
       if String.eqb seg ".." then tl acc
       else if String.eqb seg "." then acc
       else seg :: acc) segs [] in
  let acc := if String.eqb (last_str segs) "." || String.eqb (last_str segs) ".."
             then EmptyString :: acc else acc in
  List.rev acc.

Definition urljoin (base url : string) : option string :=
  if negb (truthy base) then Some url else
  if negb (truthy url) then Some base else
  match urlparse base EmptyString with
  | None => None
  | Some b =>
  match urlparse url (p_scheme b) with
  | None => None
  | Some u =>
  let scheme := p_scheme u in
  if negb (String.eqb scheme (p_scheme b)) || negb (mem scheme uses_relative)
  then Some url else
  let k := fun netloc path params query =>
    if negb (truthy path) && negb (truthy params) then
      let query := if truthy query then query else p_query b in
      Some (urlunparse {| p_scheme := scheme; p_netloc := netloc;
                          p_path := p_path b; p_params := p_params b;
                          p_query := query; p_fragment := p_fragment u |})
    else
      let base_parts := split "/"%char (p_path b) in
      let base_parts := if truthy (last_str base_parts)
                        then removelast_str base_parts else base_parts in
      let segments :=
        if String.eqb (take 1 path) "/" then split "/"%char path
        else filter_middle (base_parts ++ split "/"%char path)%list in
      let joined := join "/" (resolve segments) in
      Some (urlunparse {| p_scheme := scheme; p_netloc := netloc;
                          p_path := if truthy joined then joined else "/";
                          p_params := params; p_query := query;
                          p_fragment := p_fragment u |}) in
  if mem scheme uses_netloc then
    if truthy (p_netloc u) then Some (urlunparse u)
    else k (p_netloc b) (p_path u) (p_params u) (p_query u)
  else k (p_netloc u) (p_path u) (p_params u) (p_query u)
  end end.

(** [ParseResult.hostname] *)
Definition hostname (r : ParseResult) : option string :=
  let hostinfo := match rfind_char "@"%char (p_netloc r) with
                  | Some i => drop (S i) (p_netloc r)
                  | None => p_netloc r
                  end in
  let host := match split_once "["%char hostinfo with
              | Some (_, bracketed) => fst (split_or_empty "]"%char bracketed)
              | None => fst (split_or_empty ":"%char hostinfo)
              end in
  if negb (truthy host) then None else
  let '(h, zone) := split_or_empty "%"%char host in
  Some (if has_char "%"%char host then lower h ++ "%" ++ zone else lower h).

End Url.

(* ------------------------------------------------------------------ *)
(** ** [src/utils.py] and [config.py] *)

Module Config.
Definition MAX_RETRIES : nat := 3.
Definition EXCLUDE_PATTERNS : list string := ["login"; "signup"; "account"; "portal/api"].
Definition IMAGE_EXTENSIONS : list string := [".jpg"; ".jpeg"; ".png"; ".gif"; ".webp"; ".svg"].
End Config.

(** [normalize_url(url, base_url=None)]; [base_url] is [None] or a string. *)
Definition normalize_url (url : string) (base_url : option string) : option string :=
  let joined := match base_url with
                | Some b => if truthy b then Url.urljoin b url else Some url
                | None => Some url
                end in
  match joined with
  | None => None
  | Some url =>
      match Url.urlparse url EmptyString with
      | None => None
      | Some parsed =>
          let normalized := Url.urlunparse (Url.drop_fragment parsed) in
          Some (if endswith normalized "/"
                then take (String.length normalized - 1) normalized
                else normalized)
      end
  end.

(** [is_valid_url(url)] *)
Definition is_valid_url (url : string) : option bool :=
  if negb (truthy url) then Some false else
  match Url.urlparse url EmptyString with
  | None => None
  | Some parsed =>
      if negb (startswith (Url.p_netloc parsed) "support.haltech.com")
      then Some false
      else Some (negb (existsb (fun pattern => contains pattern (lower url))
                               Config.EXCLUDE_PATTERNS))
  end.

(** [Path(p).name] for a POSIX path: the last component that is neither
    empty nor ['.'], or [''] when there is none. *)
Definition path_name (p : string) : string :=
  Url.last_str (filter (fun c => truthy c && negb (String.eqb c "."))
                       (split "/"%char p)).

(** [invalid_chars]: the characters < > : | ? * and the double quote
    (code 34). *)
Definition invalid_chars : list ascii :=
  ["<"%char; ">"%char; ":"%char; ascii_of_nat 34; "|"%char; "?"%char; "*"%char].

(** [re.sub(r'\s+', ' ', s)]; [in_run] says a whitespace run is open. *)
Fixpoint collapse_ws_aux (in_run : bool) (s : string) : string :=
  match s with
  | EmptyString => EmptyString
  | String c s' =>
      if is_space c
      then if in_run then collapse_ws_aux true s'
           else String " "%char (collapse_ws_aux true s')
      else String c (collapse_ws_aux false s')
  end.

Definition collapse_ws (s : string) : string := collapse_ws_aux false s.

(** [clean_filename(filename)] *)
Definition clean_filename (filename : string) : string :=
  let filename := fold_left (fun f c => remove_char c f) invalid_chars filename in
  strip (collapse_ws filename).

(** [get_image_filename(url, index=None)]; [index] is [None] or an [int]. *)
Definition get_image_filename (url : string) (index : option Z) : option string :=
  match Url.urlparse url EmptyString with
  | None => None
  | Some parsed =>
      let filename := path_name (Url.p_path parsed) in
      let filename :=
        if negb (truthy filename) || String.eqb filename "/"
        then "image_" ++ str_of_Z (match index with Some i => i | None => 0%Z end)
        else filename in
      let filename :=
        if negb (existsb (endswith filename) Config.IMAGE_EXTENSIONS)
        then filename ++ ".jpg" else filename in
      Some (clean_filename filename)
  end.

(* ------------------------------------------------------------------ *)
(** ** [src/category_mapper.py] *)

Module Category.

Definition bmw := "technical-library/engines/bmw".
Definition ford := "technical-library/engines/ford".
Definition honda := "technical-library/engines/honda".
Definition mazda := "technical-library/engines/mazda".
Definition mitsubishi := "technical-library/engines/mitsubishi".
Definition nissan := "technical-library/engines/nissan".
Definition subaru := "technical-library/engines/subaru".
Definition toyota := "technical-library/engines/toyota".
Definition vw := "technical-library/engines/vw".
Definition gm := "technical-library/engines/gm".

(** [ENGINE_MAPPINGS], in declaration (= iteration) order. *)
Definition ENGINE_MAPPINGS : list (string * string) :=
  [("bmw", bmw); ("m50", bmw); ("m52", bmw); ("m54", bmw); ("s50", bmw);
   ("s52", bmw); ("s54", bmw); ("n54", bmw); ("n55", bmw);
   ("ford", ford); ("barra", ford); ("windsor", ford); ("modular", ford);
   ("coyote", ford); ("ecoboost", ford);
   ("honda", honda); ("b-series", honda); ("b16", honda); ("b18", honda);
   ("b20", honda); ("d-series", honda); ("d16", honda); ("k-series", honda);
   ("k20", honda); ("k24", honda);
   ("mazda", mazda); ("miata", mazda); ("mx-5", mazda); ("mx5", mazda);
   ("na-nb", mazda); ("bp", mazda); ("b6", mazda); ("rotary", mazda);
   ("13b", mazda); ("20b", mazda);
   ("mitsubishi", mitsubishi); ("4g63", mitsubishi); ("4g93", mitsubishi);
   ("4b11", mitsubishi); ("evo", mitsubishi);
   ("nissan", nissan); ("rb", nissan); ("rb20", nissan); ("rb25", nissan);
   ("rb26", nissan); ("rb30", nissan); ("sr20", nissan); ("vq", nissan);
   ("vq35", nissan); ("vr38", nissan); ("ca18", nissan);
   ("subaru", subaru); ("ej", subaru); ("ej20", subaru); ("ej25", subaru);
   ("fa20", subaru); ("fb", subaru);
   ("toyota", toyota); ("1jz", toyota); ("2jz", toyota); ("1uz", toyota);
   ("2uz", toyota); ("3uz", toyota); ("4ag", toyota); ("3sg", toyota);
   ("2zz", toyota); ("1nz", toyota); ("2az", toyota); ("2rz", toyota);
   ("3rz", toyota);
   ("vw", vw); ("volkswagen", vw); ("audi", vw); ("1.8t", vw);
   ("1.8-turbo", vw); ("2.0t", vw); ("vr6", vw);
   ("gm", gm); ("chevrolet", gm); ("chevy", gm); ("ls", gm); ("ls1", gm);
   ("ls2", gm); ("ls3", gm); ("ls6", gm); ("ls7", gm); ("lsx", gm)].

Definition PRODUCT_MAPPINGS : list (string * string) :=
  [("elite", "products/elite-series"); ("elite-1000", "products/elite-series");
   ("elite-1500", "products/elite-series"); ("elite-2000", "products/elite-series");
   ("elite-2500", "products/elite-series"); ("nexus", "products/nexus-series");
   ("nexus-r3", "products/nexus-series"); ("nexus-r5", "products/nexus-series");
   ("nexus-s3", "products/nexus-series");
   ("ic-7", "products/displays"); ("iq3", "products/displays");
   ("dash", "products/displays"); ("display", "products/displays");
   ("wideband", "products/sensors"); ("wb1", "products/sensors");
   ("wb2", "products/sensors")].

Definition TECHNICAL_MAPPINGS : list (string * string) :=
  [("trigger", "technical-library/triggers");
   ("crank-trigger", "technical-library/triggers");
   ("cam-trigger", "technical-library/triggers");
   ("home-signal", "technical-library/triggers");
   ("fuel", "technical-library/fuel"); ("injector", "technical-library/fuel");
   ("fuel-pump", "technical-library/fuel"); ("flex-fuel", "technical-library/fuel");
   ("e85", "technical-library/fuel");
   ("ignition", "technical-library/ignition-systems");
   ("coil", "technical-library/ignition-systems");
   ("spark", "technical-library/ignition-systems");
   ("cdi", "technical-library/ignition-systems");
   ("sensor", "technical-library/sensors"); ("map", "technical-library/sensors");
   ("maf", "technical-library/sensors"); ("tps", "technical-library/sensors");
   ("iat", "technical-library/sensors"); ("ect", "technical-library/sensors");
   ("lambda", "technical-library/sensors"); ("o2", "technical-library/sensors");
   ("boost", "technical-library/functions"); ("idle", "technical-library/functions");
   ("launch", "technical-library/functions");
   ("antilag", "technical-library/functions");
   ("traction", "technical-library/functions");
   ("nitrous", "technical-library/functions");
   ("cam-control", "technical-library/functions");
   ("vvt", "technical-library/functions")].

Definition SOFTWARE_MAPPINGS : list (string * string) :=
  [("nsp", "nexus-software-programmer-nsp");
   ("nexus-software", "nexus-software-programmer-nsp");
   ("esp", "elite-software-programmer");
   ("elite-software", "elite-software-programmer");
   ("datalog", "software/datalog"); ("tuning", "software/tuning")].

(** [str.title()] on the ASCII category names of the tables. *)
Definition upper_char (c : ascii) : ascii :=
  let n := code c in if (97 <=? n) && (n <=? 122) then ascii_of_nat (n - 32) else c.

Fixpoint title_aux (prev_cased : bool) (s : string) : string :=
  match s with
  | EmptyString => EmptyString
  | String c s' =>
      if Url.is_ascii_alpha c
      then String (if prev_cased then lower_char c else upper_char c) (title_aux true s')
      else String c (title_aux false s')
  end.

Definition title (s : string) : string := title_aux false s.

Definition breadcrumbs_of (category : string) : list string :=
  (["Knowledge Base"; "Haltech"]
   ++ map (fun p => title (replace p "-" " ")) (split "/"%char category))%list.

(** [for keyword, category in MAPPINGS.items(): if keyword in text: ...] *)
Fixpoint first_match (text : string) (table : list (string * string)) : option string :=
  match table with
  | [] => None
  | (keyword, category) :: rest =>
      if contains keyword text then Some category else first_match text rest
  end.

Definition is_slug_char (c : ascii) : bool :=
  negb (char_eqb c "/"%char || char_eqb c "?"%char).

Fixpoint slug_run (s : string) : string :=
  match s with
  | EmptyString => EmptyString
  | String c s' => if is_slug_char c then String c (slug_run s') else EmptyString
  end.

(** [re.search(r'/kb/articles/([^/?]+)', url)], group 1. *)
Fixpoint search_article_slug (url : string) : option string :=
  let here :=
    if prefix "/kb/articles/" url
    then let g := slug_run (drop 13 url) in if truthy g then Some g else None
    else None in
  match here with
  | Some g => Some g
  | None => match url with
            | EmptyString => None
            | String _ url' => search_article_slug url'
            end
  end.

Definition any_in (terms : list string) (s : string) : bool :=
  existsb (fun t => contains t s) terms.

(** [categorize_article(url, title, content)] *)
Definition categorize_article (url title content : string) : string * list string :=
  let url_lower := lower url in
  let title_lower := if truthy title then lower title else EmptyString in
  let content_lower := if truthy content then lower content else EmptyString in
  let combined_text := url_lower ++ " " ++ title_lower ++ " " ++ take 500 content_lower in
  let tables := [ENGINE_MAPPINGS; PRODUCT_MAPPINGS; TECHNICAL_MAPPINGS; SOFTWARE_MAPPINGS] in
  let found := fold_left (fun acc table =>
                  match acc with
                  | Some c => Some c
                  | None => first_match combined_text table
                  end) tables None in
  match found with
  | Some category => (category, breadcrumbs_of category)
  | None =>
      let fallback :=
        if contains "/kb/articles/" url then
          match search_article_slug url with
          | Some article_slug =>
              if any_in ["engine"; "motor"] article_slug then
                Some ("technical-library/engines",
                      ["Knowledge Base"; "Haltech"; "Technical Library"; "Engines"])
              else if any_in ["trigger"; "crank"; "cam"] article_slug then
                Some ("technical-library/triggers",
                      ["Knowledge Base"; "Haltech"; "Technical Library"; "Triggers"])
              else if any_in ["fuel"; "injector"] article_slug then
                Some ("technical-library/fuel",
                      ["Knowledge Base"; "Haltech"; "Technical Library"; "Fuel"])
              else if any_in ["wire"; "wiring"; "harness"; "pinout"] article_slug then
                Some ("technical-library/wiring",
                      ["Knowledge Base"; "Haltech"; "Technical Library"; "Wiring"])
              else if any_in ["tune"; "tuning"; "map"] article_slug then
                Some ("technical-library/tuning",
                      ["Knowledge Base"; "Haltech"; "Technical Library"; "Tuning"])
              else None
          | None => None
          end
        else None in
      match fallback with
      | Some r => r
      | None => ("articles", ["Knowledge Base"; "Haltech"; "Articles"])
      end
  end.

End Category.

(* ------------------------------------------------------------------ *)
(** ** [src/scraper.py]: the per-article pipeline and its retry loop *)

Module Scheduler.

(** [self.scraped_urls], [self.failed_urls], and the trace of attempts:
    one [(url, retry_count)] per entry into the [try] of [_scrape_article]. *)
Record State := {
  scraped_urls : list string;
  failed_urls : list string;
  attempts : list (string * nat) }.

Definition init : State := {| scraped_urls := []; failed_urls := []; attempts := [] |}.

(** [set.add] *)
Definition set_add (x : string) (xs : list string) : list string :=
  if mem x xs then xs else (xs ++ [x])%list.

Definition add_scraped (url : string) (st : State) : State :=
  {| scraped_urls := set_add url (scraped_urls st); failed_urls := failed_urls st;
     attempts := attempts st |}.

Definition add_failed (url : string) (st : State) : State :=
  {| scraped_urls := scraped_urls st; failed_urls := set_add url (failed_urls st);
     attempts := attempts st |}.

Definition log_attempt (url : string) (retry_count : nat) (st : State) : State :=
  {| scraped_urls := scraped_urls st; failed_urls := failed_urls st;
     attempts := (attempts st ++ [(url, retry_count)])%list |}.

(** What one attempt of the body of [_scrape_article] does, as decided by the
    browser, the network and the file system:
    - [Raised_before_save]: some step raises before [scraped_urls.add(url)]
      (context or page creation, navigation timeout, empty content,
      empty Markdown, image processing, the file write);
    - [Saved]: the document is written, [url] is added to [scraped_urls],
      and the [finally] closes page and context;
    - [Saved_then_close_raised]: as [Saved], but [page.close()] or
      [context.close()] in the [finally] raises. *)
Inductive attempt_outcome := Raised_before_save | Saved | Saved_then_close_raised.

Section Run.

Variable outcome : string -> nat -> attempt_outcome.

(** [_scrape_article(url, retry_count)]; [fuel] is [MAX_RETRIES - retry_count],
    the number of recursive retries still possible. *)
Fixpoint scrape_go (fuel : nat) (url : string) (retry_count : nat) (st : State) : State :=
  if mem url (scraped_urls st) then st else
  let st := log_attempt url retry_count st in
  let '(raised, st) :=
    match outcome url retry_count with
    | Raised_before_save => (true, st)
    | Saved => (false, add_scraped url st)
    | Saved_then_close_raised => (true, add_scraped url st)
    end in
  if raised then
    if retry_count <? Config.MAX_RETRIES then
      match fuel with
      | S fuel' => scrape_go fuel' url (S retry_count) st
      | 0 => st                     (* not reached: fuel = MAX_RETRIES - retry_count > 0 *)
      end
    else add_failed url st
  else st.

Definition scrape_article (url : string) (retry_count : nat) (st : State) : State :=
  scrape_go (Config.MAX_RETRIES - retry_count) url retry_count st.

(** [_scrape_articles(article_urls)] from a fresh scraper.  The tasks run
    under a semaphore on a cooperative scheduler; each task only reads and
    writes the membership of its own URL, and the URLs of [article_urls]
    (a [set]) are distinct, so running the tasks one after the other gives
    the same sets as any interleaving. *)
Definition scrape_articles (article_urls : list string) : State :=
  fold_left (fun st url => scrape_article url 0 st) article_urls init.

End Run.

End Scheduler.

(* ------------------------------------------------------------------ *)
(** ** [src/scraper.py]: image rehosting *)

Module Images.

(** An entry of [article_data['images']]: [img_data['src']] and
    [img_data.get('alt', '')]. *)
Record ImageRef := { src : string; alt : string }.

(** The output path of a document: its directories below [OUTPUT_DIR] and its
    file name. *)
Record OutputPath := { out_dirs : list string; out_file : string }.

(** Modelled from the spec: [calculate_relative_path_to_images] (imported by
    scraper.py from [src.utils], absent from the utils.py of the sources):
    the relative path from the directory of the document to the shared
    images directory [OUTPUT_DIR/images], one [..] per directory level
    between the document and the output root. *)
Definition calculate_relative_path_to_images (output_path : OutputPath) : string :=
  join "/" (repeat ".." (List.length (out_dirs output_path)) ++ ["images"])%list.

(** Outcome of [self.session.get(absolute_url)] and of saving the bytes. *)
Inductive download := Fetched (status : Z) | Download_raised.

Definition nl : string := String (ascii_of_nat 10) EmptyString.

(** [repr] of [config.IMAGES_DIR.iterdir()], a generator object at some
    address [addr] (lowercase hexadecimal digits). *)
Definition iterdir_repr (addr : string) : string :=
  "<generator object Path.iterdir at 0x" ++ addr ++ ">".

Definition is_hex_digit (c : ascii) : bool :=
  Url.is_digit c || ((97 <=? code c) && (code c <=? 102)).

Section Rehost.

Variable fetch : string -> download.

(** The loop of [_process_images]; [None] is the [ValueError] that
    [normalize_url(src, article_url)], outside the [try], lets escape. *)
Fixpoint process_loop (relative_to_images article_url : string) (i : nat)
    (images : list ImageRef) (markdown_content : string) : option string :=
  match images with
  | [] => Some markdown_content
  | img :: rest =>
      if negb (truthy (src img))
      then process_loop relative_to_images article_url (S i) rest markdown_content
      else
      match normalize_url (src img) (Some article_url) with
      | None => None
      | Some absolute_url =>
          let markdown_content :=
            match fetch absolute_url with
            | Fetched 200 =>
                match get_image_filename absolute_url (Some (Z.of_nat i)) with
                | None => markdown_content        (* ValueError, caught *)
                | Some filename =>
                    let relative_path := relative_to_images ++ "/" ++ filename in
                    let old_md_image := "![" ++ alt img ++ "](" ++ src img in
                    let new_md_image := "![" ++ alt img ++ "](" ++ relative_path in
                    let markdown_content :=
                      if contains old_md_image markdown_content
                      then replace markdown_content old_md_image new_md_image
                      else markdown_content in
                    let old_md_image_abs := "![" ++ alt img ++ "](" ++ absolute_url in
                    let markdown_content :=
                      if contains old_md_image_abs markdown_content
                      then replace markdown_content old_md_image_abs new_md_image
                      else markdown_content in
                    let markdown_content := replace markdown_content (src img) relative_path in
                    replace markdown_content absolute_url relative_path
                end
            | _ => markdown_content
            end in
          process_loop relative_to_images article_url (S i) rest markdown_content
      end
  end.

(** The loop of [_ensure_image_references]; [listing] is
    [str(config.IMAGES_DIR.iterdir())]. *)
Fixpoint ensure_loop (listing relative_to_images : string) (i : nat)
    (images : list ImageRef) (markdown_content : string) : option string :=
  match images with
  | [] => Some markdown_content
  | img :: rest =>
      if negb (truthy (src img))
      then ensure_loop listing relative_to_images (S i) rest markdown_content
      else
      match normalize_url (src img) (Some EmptyString) with
      | None => None
      | Some absolute_url =>
      match get_image_filename (if truthy absolute_url then absolute_url else src img)
                               (Some (Z.of_nat i)) with
      | None => None
      | Some filename =>
          let relative_path := relative_to_images ++ "/" ++ filename in
          let markdown_content :=
            if negb (contains relative_path markdown_content) && contains filename listing
            then
              let markdown_content :=
                if negb (endswith (strip markdown_content) (nl ++ nl))
                then markdown_content ++ nl ++ nl else markdown_content in
              let image_ref := "![" ++ (if truthy (alt img) then alt img else "Image")
                               ++ "](" ++ relative_path ++ ")" in
              if truthy (alt img) then markdown_content ++ image_ref ++ nl ++ nl
              else markdown_content ++ nl ++ image_ref ++ nl ++ nl
            else markdown_content in
          ensure_loop listing relative_to_images (S i) rest markdown_content
      end end
  end.

Definition ensure_image_references (listing markdown_content : string)
    (images : list ImageRef) (relative_to_images : string) : option string :=
  ensure_loop listing relative_to_images 0 images markdown_content.

(** [_process_images(markdown_content, images, article_url, output_path)] *)
Definition process_images (listing markdown_content : string) (images : list ImageRef)
    (article_url : string) (output_path : OutputPath) : option string :=
  let relative_to_images := calculate_relative_path_to_images output_path in
  match process_loop relative_to_images article_url 0 images markdown_content with
  | None => None
  | Some markdown_content =>
      ensure_image_references listing markdown_content images relative_to_images
  end.

End Rehost.

End Images.

(* ------------------------------------------------------------------ *)
(** ** [src/parser.py]: [_extract_content] and [_extract_content_heuristic]

    BeautifulSoup is an external collaborator; its operations are the
    variables of the section.  [Soup] is the state of the parsed tree, which
    [decompose] mutates. *)

Module Extract.

Definition content_selectors : list string :=
  [".article-content"; ".kb-article-content"; ".content-wrapper"; "article";
   "main"; ".main-content"; "#main-content"; ".post-content"; ".entry-content";
   "div[role=" ++ dq ++ "main" ++ dq ++ "]"].

Section Dom.

Variables Soup Elem : Type.
(** [soup.select_one(selector)] *)
Variable select_one : Soup -> string -> option Elem.
(** [for unwanted in content.select('nav, aside, .sidebar, .related-articles'):
    unwanted.decompose()] *)
Variable decompose_unwanted : Soup -> Elem -> Soup.
(** [elem.get_text(strip=True)] in the current tree *)
Variable get_text : Soup -> Elem -> string.
(** [str(elem)] in the current tree *)
Variable render : Soup -> Elem -> string.
(** [BeautifulSoup(str(soup), 'lxml')] with [script, style, nav, header,
    footer, aside, .sidebar] decomposed *)
Variable cleaned_copy : Soup -> Soup.
(** [soup_copy.select('div, article, section, main')], in document order *)
Variable block_containers : Soup -> list Elem.
(** [len(elem.find_all('p'))] *)
Variable p_count : Soup -> Elem -> nat.
(** [soup_copy.find('body')] *)
Variable body : Soup -> option Elem.

(** [score = text_length + (p_count * 50)] *)
Definition score (s : Soup) (e : Elem) : nat :=
  String.length (get_text s e) + p_count s e * 50.

(** [containers.sort(key=lambda x: x[1], reverse=True)]: a stable sort by
    decreasing score (insertion after the entries of equal score). *)
Fixpoint insert_desc (x : Elem * nat) (l : list (Elem * nat)) : list (Elem * nat) :=
  match l with
  | [] => [x]
  | y :: l' => if snd y <? snd x then x :: l else y :: insert_desc x l'
  end.

Definition sort_desc (l : list (Elem * nat)) : list (Elem * nat) :=
  fold_left (fun acc x => insert_desc x acc) l [].

(** [_extract_content_heuristic(soup)] *)
Definition extract_content_heuristic (soup : Soup) : string :=
  let soup_copy := cleaned_copy soup in
  let containers :=
    filter (fun es => 200 <? snd es)
           (map (fun e => (e, score soup_copy e)) (block_containers soup_copy)) in
  match sort_desc containers with
  | (best, _) :: _ => render soup_copy best
  | [] => match body soup_copy with
          | Some b => render soup_copy b
          | None => EmptyString
          end
  end.

(** The selector loop of [_extract_content]. *)
Fixpoint cascade (selectors : list string) (soup : Soup) : string :=
  match selectors with
  | [] => extract_content_heuristic soup
  | selector :: rest =>
      match select_one soup selector with
      | Some content =>
          let soup := decompose_unwanted soup content in
          let text_content := get_text soup content in
          if 100 <? String.length text_content then render soup content
          else cascade rest soup
      | None => cascade rest soup
      end
  end.

(** [_extract_content(soup)] *)
Definition extract_content (soup : Soup) : string := cascade content_selectors soup.

End Dom.

End Extract.

(* ------------------------------------------------------------------ *)
(** ** [src/converter.py]: [HTMLToMarkdownConverter.convert] *)

Module Converter.

(** A raised exception: an instance of a subclass of [Exception], named by
    its class. *)
Inductive py_exn := Exn (cls : string).

Inductive result (A : Type) := Ok (a : A) | Raise (e : py_exn).
Arguments Ok {A} a.
Arguments Raise {A} e.

Section Convert.

(** [self._clean_html(html_content, base_url)] *)
Variable clean_html : string -> option string -> result string.
(** [md(cleaned_html, **self.conversion_options)] *)
Variable markdownify : string -> result string.
(** [self._post_process_markdown(markdown)] *)
Variable post_process_markdown : string -> result string.

(** [convert(html_content, base_url)]: the [try] body in the [result]
    monad; [except Exception] logs and returns [""]. *)
Definition convert (html_content : string) (base_url : option string) : result string :=
  let body :=
    match clean_html html_content base_url with
    | Raise e => Raise e
    | Ok cleaned_html =>
        match markdownify cleaned_html with
        | Raise e => Raise e
        | Ok markdown => post_process_markdown markdown
        end
    end in
  match body with
  | Ok markdown => Ok markdown
  | Raise _ => Ok EmptyString
  end.

End Convert.

End Converter.

(* ------------------------------------------------------------------ *)
(** ** Vocabulary of the statements *)

(** A character of a plain host name: printable, not blank, and none of
    [/ ? # [ ]]. *)
Definition host_char (c : ascii) : bool :=
  (32 <? code c) && negb (has_char c "/?#[]").

(** A character of a plain path: printable, not blank, and none of [? # ;]. *)
Definition path_char (c : ascii) : bool :=
  (32 <? code c) && negb (has_char c "?#;").

(** [s[:-1] if s.endswith('/') else s] *)
Definition strip_one_slash (s : string) : string :=
  if endswith s "/" then take (String.length s - 1) s else s.

(** A character of a plain path segment: a path character that is no slash,
    no whitespace and none of the characters [clean_filename] removes. *)
Definition seg_char (c : ascii) : bool :=
  path_char c && negb (char_eqb c "/"%char) && negb (is_space c)
  && negb (existsb (char_eqb c) invalid_chars).

(** A plain path segment: non-empty, not ['.'], of segment characters. *)
Definition plain_segment (x : string) : bool :=
  truthy x && negb (String.eqb x ".") && Url.all_chars seg_char x.

(* ------------------------------------------------------------------ *)
(** ** [src/utils.py]: slugs, output paths and the front matter *)

Module Utils.

(** [config.MAX_FILENAME_LENGTH] and [config.SLUG_SEPARATOR] *)
Definition MAX_FILENAME_LENGTH : Z := 200.
Definition SLUG_SEPARATOR : ascii := "-".

(** [s[:n]] for an [int] [n] *)
Definition slice_to (n : Z) (s : string) : string :=
  if (0 <=? n)%Z then take (Z.to_nat n) s
  else take (String.length s - Z.to_nat (- n)) s.

(** [s.rsplit(c, 1)[0]] for a one-character separator *)
Definition rsplit_head (c : ascii) (s : string) : string :=
  match rfind_char c s with
  | Some j => take j s
  | None => s
  end.

(** The components of [Path(p)] for a relative [p]: the parts between
    slashes that are neither empty nor ['.']. *)
Definition path_comps (p : string) : list string :=
  filter (fun c => truthy c && negb (String.eqb c ".")) (split "/"%char p).

(** [prefixes] of [extract_domain_path] *)
Definition domain_prefixes : list string := ["portal/en/kb/haltech/"; "portal/kb/"; "kb/"].

(** The [for prefix in prefixes: if path.startswith(prefix): ...; break] loop. *)
Fixpoint remove_first_prefix (prefixes : list string) (path : string) : string :=
  match prefixes with
  | [] => path
  | prefix :: rest =>
      if startswith path prefix then drop (String.length prefix) path
      else remove_first_prefix rest path
  end.

(** [extract_domain_path(url)]; [None] is the [ValueError] of [urlparse]. *)
Definition extract_domain_path (url : string) : option (list string) :=
  match Url.urlparse url EmptyString with
  | None => None
  | Some parsed =>
      let path := strip_by (fun c => char_eqb c "/"%char) (Url.p_path parsed) in
      Some (split "/"%char (remove_first_prefix domain_prefixes path))
  end.

(** [create_metadata_header(title, url, category, subcategory)];
    [date_scraped] is [datetime.now().strftime('%Y-%m-%d')]. *)
Definition create_metadata_header (title url date_scraped : string)
    (category subcategory : option string) : string :=
  let opt_line key v :=
    match v with
    | Some x => if truthy x then [key ++ ": " ++ x] else []
    | None => []
    end in
  join Images.nl (["---"; "title: " ++ title; "url: " ++ url; "date_scraped: " ++ date_scraped]%string
                  ++ opt_line "category" category ++ opt_line "subcategory" subcategory
                  ++ ["---" ++ Images.nl]%string)%list.

Section Slug.

(** [slugify(text, separator='-')] of python-slugify. *)
Variable slugify : string -> string.

(** [create_slug(text, max_length=None)] *)
Definition create_slug (text : string) (max_length : option Z) : string :=
  let max_length := match max_length with Some m => m | None => MAX_FILENAME_LENGTH end in
  let slug := slugify text in
  if (max_length <? Z.of_nat (String.length slug))%Z
  then rsplit_head SLUG_SEPARATOR (slice_to max_length slug)
  else slug.

(** [dir_path.mkdir(parents=True, exist_ok=True)] for the directories below
    [OUTPUT_DIR]: [false] when it raises. *)
Variable mkdir : list string -> bool.

(** [create_output_path(url, title, content, breadcrumbs)]: the directories of
    the result below [config.OUTPUT_DIR] and its file name.  [title] and
    [content] stand for [title or ''] and [content or '']; [breadcrumbs] is
    [None] or a list, [None] given as [[]], which the two tests treat alike.
    [Path] of several parts has the components of its parts: none of them starts with
    a slash (the URL parts hold none, the category paths are the constants of
    the tables, and python-slugify emits none). *)
Definition create_output_path (url title content : string) (breadcrumbs : list string)
    : option Images.OutputPath :=
  match extract_domain_path url with
  | None => None
  | Some path_parts =>
      let n := List.length breadcrumbs in
      let dirs :=
        if contains "/kb/articles/" url && negb (n =? 0) && (n <=? 2)
        then path_comps (fst (Category.categorize_article url title content))
        else if negb (n =? 0) && (2 <? n)
        then
          let clean_breadcrumbs := map (fun b => create_slug b None) (skipn 2 breadcrumbs) in
          match clean_breadcrumbs with
          | [] => []
          | _ => flat_map path_comps clean_breadcrumbs
          end
        else if 1 <? List.length path_parts
        then flat_map path_comps (removelast path_parts)
        else [] in
      if mkdir dirs then
        let filename := match path_parts with
                        | [] => "index.md"
                        | _ => last path_parts EmptyString ++ ".md"
                        end in
        Some {| Images.out_dirs := dirs; Images.out_file := clean_filename filename |}
      else None
  end.

End Slug.

End Utils.

(* ------------------------------------------------------------------ *)
(** ** [src/scraper.py]: the saved document and the index *)

Module Index.

(** [metadata_header + "\n" + markdown_content], written by [_scrape_article]. *)
Definition saved_document (metadata_header markdown_content : string) : string :=
  metadata_header ++ Images.nl ++ markdown_content.

(** The [for line in lines: if line.startswith('title:'): ...; break] loop of
    [_generate_index_files]: the index entry of the first title line. *)
Fixpoint title_entry (relative_path : string) (lines : list string) : option string :=
  match lines with
  | [] => None
  | line :: rest =>
      if startswith line "title:"
      then let title := strip (replace line "title:" "") in
           Some ("- [" ++ title ++ "](" ++ relative_path ++ ")")
      else title_entry relative_path rest
  end.

(** The newline translation of text-mode reading with [newline=None]
    (universal newlines): [\r\n] and a lone [\r] both become [\n]. *)
Fixpoint univ_nl (s : string) : string :=
  match s with
  | EmptyString => EmptyString
  | String c rest =>
      if char_eqb c (ascii_of_nat 13) then
        match rest with
        | String d rest' =>
            if char_eqb d (ascii_of_nat 10) then String (ascii_of_nat 10) (univ_nl rest')
            else String (ascii_of_nat 10) (univ_nl rest)
        | EmptyString => String (ascii_of_nat 10) EmptyString
        end
      else String c (univ_nl rest)
  end.

(** [article.read_text(encoding='utf-8')] of a file whose bytes are
    [content]; [write_text] on a POSIX system stores its text unchanged. *)
Definition read_text (content : string) : string := univ_nl content.

(** The entry of the article [article_name] of [category_dir], whose file holds
    [content]: [content = article.read_text(...)], [lines = content.split('\n')]. *)
Definition index_entry (category_dir article_name content : string) : option string :=
  title_entry (category_dir ++ "/" ++ article_name) (split (ascii_of_nat 10) (read_text content)).

End Index.

(* ------------------------------------------------------------------ *)
(** ** [src/crawler.py]: site discovery *)

Module Crawler.

Definition article_patterns : list string :=
  ["/articles/"; "/article/"; "/solutions/"; "/how-to/"; "/guide/"; "/tutorial/"].

Definition category_patterns : list string :=
  ["/category/"; "/categories/"; "/section/"; "/topic/"].

(** [_is_article_url(url, link_text)]; [len] counts the characters. *)
Definition is_article_url (url link_text : string) : bool :=
  let url_lower := lower url in
  if existsb (fun pattern => contains pattern url_lower) article_patterns then true
  else if endswith url_lower ".html" || contains "/kb/" url_lower
  then truthy link_text && (10 <? String.length link_text)
  else false.

(** [_is_category_url(url)] *)
Definition is_category_url (url : string) : bool :=
  let url_lower := lower url in
  if existsb (fun pattern => contains pattern url_lower) category_patterns then true
  else if contains "/kb/" url_lower && negb (is_article_url url EmptyString) then true
  else false.

(** [config.KB_URL] and the default [max_depth] of [_discover_page]. *)
Definition KB_URL : string := "https://support.haltech.com/portal/en/kb/haltech".
Definition max_depth : nat := 5.

(** [self.visited_urls] and [self.article_urls]; [category_structure], which
    only [_extract_category_info] writes and nothing here reads, is left out. *)
Record CState := { visited_urls : list string; article_urls : list string }.

Definition init : CState := {| visited_urls := []; article_urls := [] |}.

Definition add_visited (u : string) (st : CState) : CState :=
  {| visited_urls := Scheduler.set_add u (visited_urls st); article_urls := article_urls st |}.

Definition add_article (u : string) (st : CState) : CState :=
  {| visited_urls := visited_urls st; article_urls := Scheduler.set_add u (article_urls st) |}.

Section Discover.

(** The links of the page at a URL, [(link.get('href', ''), link.get_text(strip=True))]
    for each [a] with an [href], in document order; [None] when [goto] or
    [content] raises. *)
Variable page_links : string -> option (list (string * string)).

(** The [for link in links] loop of [_discover_page(url, depth)] at the page
    [normalized_url]; [discover] is the recursive [_discover_page] call and the
    boolean says that an exception leaves the loop. *)
Fixpoint links_loop (discover : string -> nat -> CState -> CState * bool)
    (normalized_url : string) (depth : nat) (links : list (string * string)) (st : CState)
    : CState * bool :=
  match links with
  | [] => (st, false)
  | (href, link_text) :: rest =>
      match normalize_url href (Some normalized_url) with
      | None => (st, true)
      | Some absolute_url =>
      match is_valid_url absolute_url with
      | None => (st, true)
      | Some false => links_loop discover normalized_url depth rest st
      | Some true =>
          if is_article_url absolute_url link_text
          then links_loop discover normalized_url depth rest (add_article absolute_url st)
          else if is_category_url absolute_url
          then if mem absolute_url (visited_urls st)
               then links_loop discover normalized_url depth rest st
               else let '(st, raised) := discover absolute_url (S depth) st in
                    if raised then (st, true)
                    else links_loop discover normalized_url depth rest st
          else links_loop discover normalized_url depth rest st
      end end
  end.

(** [_discover_page(url, depth)], [max_depth = 5]; the boolean says that an
    exception escapes.  [fuel] is [max_depth - depth + 1]. *)
Fixpoint discover_page (fuel : nat) (url : string) (depth : nat) (st : CState)
    : CState * bool :=
  if max_depth <? depth then (st, false) else
  if mem url (visited_urls st) then (st, false) else
  match normalize_url url None with
  | None => (st, true)
  | Some normalized_url =>
  match is_valid_url normalized_url with
  | None => (st, true)
  | Some false => (st, false)
  | Some true =>
      let st := add_visited normalized_url st in
      match fuel with
      | 0 => (st, false)                (* not reached: fuel > 0 while depth <= max_depth *)
      | S fuel' =>
      match page_links normalized_url with
      | None => (st, false)             (* caught by the [except] *)
      | Some links =>
          (* an exception of the loop is caught by the [except] *)
          (fst (links_loop (discover_page fuel') normalized_url depth links st), false)
      end end
  end end.

(** Whether [initialize_browser()], [_save_site_map()] and
    [close_browser()] return normally. *)
Variables initialize_browser_ok save_site_map_ok close_browser_ok : bool.

(** [discover_site_structure()]: the article URLs, or [None] when an
    exception escapes: from [initialize_browser()] before the [try], from
    [_discover_page(config.KB_URL)] or [_save_site_map()] inside it, or from
    [close_browser()] in the [finally]. *)
Definition discover_site_structure : option (list string) :=
  if negb initialize_browser_ok then None else
  let '(st, raised) := discover_page (S max_depth) KB_URL 0 init in
  (* [_save_site_map()] runs when [_discover_page] returned normally *)
  let raised := if raised then true else negb save_site_map_ok in
  (* [close_browser()] runs in the [finally] *)
  if negb close_browser_ok then None else
  if raised then None else Some (article_urls st).

End Discover.

End Crawler.

(* ================================================================== *)
(** * Properties *)

Module StrFacts.

Lemma app_assoc_str (a b c : string) : (a ++ b) ++ c = a ++ (b ++ c).
Proof. induction a as [|x a IH]; simpl; [reflexivity | now rewrite IH]. Qed.

Lemma app_nil_r_str (a : string) : a ++ EmptyString = a.
Proof. induction a as [|x a IH]; simpl; [reflexivity | now rewrite IH]. Qed.

Lemma length_app_str (a b : string) :
  String.length (a ++ b) = String.length a + String.length b.
Proof. induction a as [|x a IH]; simpl; [reflexivity | now rewrite IH]. Qed.

Lemma char_eqb_true (a b : ascii) : char_eqb a b = true <-> a = b.
Proof. unfold char_eqb. apply Ascii.eqb_eq. Qed.

Lemma char_eqb_refl (a : ascii) : char_eqb a a = true.
Proof. apply char_eqb_true. reflexivity. Qed.

Lemma prefix_nil (s : string) : prefix EmptyString s = true.
Proof. destruct s; reflexivity. Qed.

Lemma prefix_spec (p s : string) : prefix p s = true <-> exists b, s = p ++ b.
Proof.
  revert s; induction p as [|c p IH]; intros s.
  - rewrite prefix_nil. split; [intros _; exists s; reflexivity | reflexivity].
  - destruct s as [|d s]; simpl.
    + split; [discriminate | intros [b Hb]; discriminate].
    + destruct (Ascii.ascii_dec c d) as [<-|Hne].
      * rewrite IH. split; intros [b Hb]; exists b; congruence.
      * split; [discriminate | intros [b Hb]; congruence].
Qed.

Lemma prefix_app (a b : string) : prefix a (a ++ b) = true.
Proof. apply prefix_spec. eauto. Qed.

Lemma contains_spec (p s : string) :
  contains p s = true <-> exists a b, s = a ++ p ++ b.
Proof.
  induction s as [|c s IH]; cbn [contains].
  - rewrite orb_false_r, prefix_spec. split.
    + intros [b Hb]. exists EmptyString, b. exact Hb.
    + intros [a [b Hab]]. destruct a; [exists b; exact Hab | discriminate].
  - rewrite orb_true_iff, prefix_spec, IH. split.
    + intros [[b Hb] | [a [b Hab]]].
      * exists EmptyString, b. exact Hb.
      * exists (String c a), b. simpl. congruence.
    + intros [a [b Hab]]. destruct a as [|d a].
      * left. exists b. exact Hab.
      * right. exists a, b. simpl in Hab. congruence.
Qed.

Lemma endswith_spec (s p : string) : endswith s p = true <-> exists x, s = x ++ p.
Proof.
  induction s as [|c s IH]; cbn [endswith].
  - rewrite orb_false_r, String.eqb_eq. split.
    + intros <-. exists EmptyString. reflexivity.
    + intros [x Hx]. destruct x; [exact Hx | discriminate].
  - rewrite orb_true_iff, String.eqb_eq, IH. split.
    + intros [<- | [x Hx]].
      * exists EmptyString. reflexivity.
      * exists (String c x). simpl. congruence.
    + intros [x Hx]. destruct x as [|d x].
      * left. exact Hx.
      * right. exists x. simpl in Hx. congruence.
Qed.

Lemma all_chars_app (f : ascii -> bool) (a b : string) :
  Url.all_chars f (a ++ b) = Url.all_chars f a && Url.all_chars f b.
Proof.
  induction a as [|c a IH]; simpl; [reflexivity|]. now rewrite IH, andb_assoc.
Qed.

Lemma has_char_app (c : ascii) (a b : string) :
  has_char c (a ++ b) = has_char c a || has_char c b.
Proof.
  induction a as [|d a IH]; simpl; [reflexivity|]. now rewrite IH, orb_assoc.
Qed.

Lemma all_chars_not_has (f : ascii -> bool) (c : ascii) (s : string) :
  Url.all_chars f s = true -> f c = false -> has_char c s = false.
Proof.
  induction s as [|d s IH]; simpl; [reflexivity|].
  intros H Hc. apply andb_true_iff in H as [Hd Hs].
  rewrite IH by assumption. rewrite orb_false_r.
  destruct (char_eqb c d) eqn:E; [|reflexivity].
  apply char_eqb_true in E. subst. congruence.
Qed.

Lemma remove_char_app (c : ascii) (a b : string) :
  remove_char c (a ++ b) = remove_char c a ++ remove_char c b.
Proof.
  induction a as [|d a IH]; simpl; [reflexivity|]. rewrite IH.
  destruct (char_eqb c d); reflexivity.
Qed.

Lemma remove_char_notin (c : ascii) (s : string) :
  has_char c s = false -> remove_char c s = s.
Proof.
  induction s as [|d s IH]; simpl; [reflexivity|].
  intros H. apply orb_false_iff in H as [Hd Hs]. rewrite Hd, IH by assumption.
  reflexivity.
Qed.

Lemma take_app_len (a b : string) (n : nat) :
  take (String.length a + n) (a ++ b) = a ++ take n b.
Proof. induction a as [|c a IH]; simpl; [reflexivity|]. now rewrite IH. Qed.

Lemma drop_app_len (a b : string) : drop (String.length a) (a ++ b) = b.
Proof. induction a as [|c a IH]; simpl; [reflexivity|]. exact IH. Qed.

Lemma find_first_app (f : ascii -> bool) (a b : string) :
  Url.all_chars (fun c => negb (f c)) a = true ->
  Url.find_first f (a ++ b) = option_map (Nat.add (String.length a)) (Url.find_first f b).
Proof.
  induction a as [|c a IH]; simpl; intros H.
  - destruct (Url.find_first f b); reflexivity.
  - apply andb_true_iff in H as [Hc Ha]. apply negb_true_iff in Hc. rewrite Hc, IH by exact Ha.
    destruct (Url.find_first f b); reflexivity.
Qed.

Lemma split_once_app (c : ascii) (a b : string) :
  has_char c a = false ->
  split_once c (a ++ b) = option_map (fun xy => (a ++ fst xy, snd xy)) (split_once c b).
Proof.
  induction a as [|d a IH]; simpl; intros H.
  - destruct (split_once c b) as [[x y]|]; reflexivity.
  - apply orb_false_iff in H as [Hd Ha]. rewrite Hd, IH by exact Ha.
    destruct (split_once c b) as [[x y]|]; reflexivity.
Qed.

Lemma split_once_none (c : ascii) (a : string) :
  has_char c a = false -> split_once c a = None.
Proof.
  induction a as [|d a IH]; simpl; intros H; [reflexivity|].
  apply orb_false_iff in H as [Hd Ha]. now rewrite Hd, IH.
Qed.

Lemma endswith_app_nonempty (a b : string) (c : ascii) :
  b <> EmptyString -> endswith (a ++ b) (String c EmptyString) = endswith b (String c EmptyString).
Proof.
  intros Hb. induction a as [|d a IH]; simpl; [reflexivity|].
  rewrite IH. destruct (a ++ b) eqn:E.
  - destruct a; simpl in E; [contradiction | discriminate].
  - simpl. destruct (Ascii.eqb d c); reflexivity.
Qed.

Lemma endswith_char_has (s : string) (c : ascii) :
  endswith s (String c EmptyString) = true -> has_char c s = true.
Proof.
  intros H. apply endswith_spec in H as [x ->].
  rewrite has_char_app. simpl. now rewrite char_eqb_refl, !orb_true_r.
Qed.

Lemma endswith_snoc_slash (a : string) :
  endswith (a ++ "/") "//" = endswith a "/".
Proof.
  induction a as [|d a IH]; [reflexivity|].
  cbn [endswith append]. rewrite IH. f_equal.
  destruct a as [|e a]; cbn [String.eqb append].
  - reflexivity.
  - assert (H : String.eqb (a ++ "/") EmptyString = false) by (destruct a; reflexivity).
    rewrite H. destruct (Ascii.eqb d "/"%char), (Ascii.eqb e "/"%char); reflexivity.
Qed.

End StrFacts.

(** ** URL normalisation (C3) *)

Module NormalizeFacts.

Import StrFacts.

Lemma all_chars_impl (f g : ascii -> bool) (s : string) :
  (forall c, f c = true -> g c = true) -> Url.all_chars f s = true -> Url.all_chars g s = true.
Proof.
  intros Hfg. induction s as [|c s IH]; simpl; [reflexivity|].
  rewrite !andb_true_iff. intros [Hc Hs]. split; auto.
Qed.
Lemma remove_unsafe_app (a b : string) :
  Url.remove_unsafe (a ++ b) = Url.remove_unsafe a ++ Url.remove_unsafe b.
Proof. unfold Url.remove_unsafe. now rewrite !remove_char_app. Qed.
Lemma remove_unsafe_printable (a : string) :
  Url.all_chars (fun c => 32 <? code c) a = true -> Url.remove_unsafe a = a.
Proof.
  intros H. unfold Url.remove_unsafe.
  rewrite (remove_char_notin "009"%char a) by (eapply all_chars_not_has; [exact H | reflexivity]).
  rewrite (remove_char_notin "013"%char a) by (eapply all_chars_not_has; [exact H | reflexivity]).
  rewrite (remove_char_notin "010"%char a) by (eapply all_chars_not_has; [exact H | reflexivity]).
  reflexivity.
Qed.
Lemma host_printable (h : string) :
  Url.all_chars host_char h = true -> Url.all_chars (fun c => 32 <? code c) h = true.
Proof. apply all_chars_impl. unfold host_char. intros c H. now apply andb_true_iff in H as [H _]. Qed.
Lemma path_printable (h : string) :
  Url.all_chars path_char h = true -> Url.all_chars (fun c => 32 <? code c) h = true.
Proof. apply all_chars_impl. unfold path_char. intros c H. now apply andb_true_iff in H as [H _]. Qed.

Lemma urlparse_plain (s h p f : string) :
  In s ["http"; "https"] -> truthy h = true ->
  Url.all_chars host_char h = true -> Url.all_chars path_char p = true ->
  (p = EmptyString \/ prefix "/" p = true) -> (f = EmptyString \/ prefix "#" f = true) ->
  exists frag, Url.urlparse (s ++ "://" ++ h ++ p ++ f) EmptyString =
    Some {| Url.p_scheme := s; Url.p_netloc := h; Url.p_path := p; Url.p_params := EmptyString;
            Url.p_query := EmptyString; Url.p_fragment := frag |}.
Proof.
  intros Hs Hh Hhc Hpc Hp Hf.
  assert (Hstrip : lstrip_by Url.c0_or_space (s ++ "://" ++ h ++ p ++ f) = s ++ "://" ++ h ++ p ++ f)
    by (destruct Hs as [<-|[<-|[]]]; reflexivity).
  assert (Hun : Url.remove_unsafe (s ++ "://" ++ h ++ p ++ f) = s ++ "://" ++ h ++ p ++ Url.remove_unsafe f).
  { rewrite !remove_unsafe_app, (remove_unsafe_printable h), (remove_unsafe_printable p)
      by auto using host_printable, path_printable.
    f_equal. destruct Hs as [<-|[<-|[]]]; reflexivity. }
  unfold Url.urlparse, Url.urlsplit. rewrite Hstrip, Hun.
  assert (Hdelim : Url.all_chars (fun c => negb (Url.is_netloc_delim c)) h = true).
  { revert Hhc. apply all_chars_impl. unfold host_char, Url.is_netloc_delim. intros c H.
    apply andb_true_iff in H as [_ H]. simpl in H.
    destruct (char_eqb c "/"%char), (char_eqb c "?"%char), (char_eqb c "#"%char);
      simpl in *; congruence. }
  assert (Hfu : exists g, (f = EmptyString /\ Url.remove_unsafe f = EmptyString) \/
                          Url.remove_unsafe f = "#" ++ g).
  { destruct Hf as [-> | Hf].
    - exists EmptyString. left. split; reflexivity.
    - apply prefix_spec in Hf as [g ->]. exists (Url.remove_unsafe g). right. reflexivity. }
  destruct Hfu as [g Hfu].
  set (f' := Url.remove_unsafe f) in *.
  assert (HD : match Url.find_first Url.is_netloc_delim (h ++ p ++ f') with
               | Some i => i | None => String.length (h ++ p ++ f') end = String.length h).
  { rewrite find_first_app by exact Hdelim.
    destruct Hp as [-> | Hp].
    - destruct Hfu as [[_ ->] | ->]; simpl.
      + rewrite length_app_str. simpl. lia.
      + lia.
    - apply prefix_spec in Hp as [q ->]. simpl. lia. }
  assert (Hb1 : has_char "["%char h = false)
    by (eapply all_chars_not_has; [exact Hhc | reflexivity]).
  assert (Hb2 : has_char "]"%char h = false)
    by (eapply all_chars_not_has; [exact Hhc | reflexivity]).
  assert (Hph : has_char "#"%char p = false)
    by (eapply all_chars_not_has; [exact Hpc | reflexivity]).
  assert (Hpq : has_char "?"%char p = false)
    by (eapply all_chars_not_has; [exact Hpc | reflexivity]).
  assert (Hps : has_char ";"%char p = false)
    by (eapply all_chars_not_has; [exact Hpc | reflexivity]).
  assert (Htake : take (String.length h) (h ++ p ++ f') = h)
    by (rewrite <- (Nat.add_0_r (String.length h)), take_app_len; apply app_nil_r_str).
  assert (Hsplit : exists frag, Url.split_or_empty "#"%char (p ++ f') = (p, frag)).
  { unfold Url.split_or_empty. rewrite split_once_app by exact Hph.
    destruct Hfu as [[_ ->] | ->]; simpl.
    - exists EmptyString. now rewrite app_nil_r_str.
    - exists g. now rewrite app_nil_r_str. }
  destruct Hsplit as [frag Hsplit]. exists frag.
  destruct Hs as [<-|[<-|[]]]; simpl; rewrite prefix_nil, HD, Htake, drop_app_len, Hb1, Hb2;
    simpl; rewrite Hsplit; unfold Url.split_or_empty at 1; rewrite (split_once_none _ p Hpq);
    simpl; rewrite Hps; simpl; reflexivity.
Qed.

Lemma take_nonempty_len (a : string) :
  a <> EmptyString -> forall X, take (String.length (X ++ a) - 1) (X ++ a) = X ++ take (String.length a - 1) a.
Proof.
  intros Ha X. rewrite length_app_str.
  destruct a as [|c a]; [contradiction|]. simpl.
  rewrite Nat.sub_0_r, <- take_app_len. f_equal. lia.
Qed.

Lemma strip_one_slash_app (X p : string) :
  endswith X "/" = false -> strip_one_slash (X ++ p) = X ++ strip_one_slash p.
Proof.
  intros HX. unfold strip_one_slash. destruct p as [|c p'] eqn:Ep.
  - rewrite app_nil_r_str, HX. simpl. now rewrite app_nil_r_str.
  - rewrite <- Ep. assert (Hne : p <> EmptyString) by (subst; discriminate).
    rewrite endswith_app_nonempty by exact Hne.
    destruct (endswith p "/"); [apply take_nonempty_len; exact Hne | reflexivity].
Qed.

Lemma normalize_plain (s h p f : string) :
  In s ["http"; "https"] -> truthy h = true ->
  Url.all_chars host_char h = true -> Url.all_chars path_char p = true ->
  (p = EmptyString \/ prefix "/" p = true) -> (f = EmptyString \/ prefix "#" f = true) ->
  normalize_url (s ++ "://" ++ h ++ p ++ f) None = Some (s ++ "://" ++ h ++ strip_one_slash p).
Proof.
  intros Hs Hh Hhc Hpc Hp Hf.
  destruct (urlparse_plain s h p f Hs Hh Hhc Hpc Hp Hf) as [frag Hparse].
  unfold normalize_url. rewrite Hparse. f_equal.
  assert (Hun : Url.urlunparse (Url.drop_fragment
            {| Url.p_scheme := s; Url.p_netloc := h; Url.p_path := p;
               Url.p_params := EmptyString; Url.p_query := EmptyString;
               Url.p_fragment := frag |}) = (s ++ "://" ++ h) ++ p).
  { destruct h as [|c h']; [discriminate|].
    destruct Hp as [-> | Hp]; [| apply prefix_spec in Hp as [q ->]];
      destruct Hs as [<-|[<-|[]]]; unfold Url.urlunparse, Url.urlunsplit; simpl;
      rewrite ?app_nil_r_str; reflexivity. }
  rewrite Hun. fold (strip_one_slash ((s ++ "://" ++ h) ++ p)).
  rewrite strip_one_slash_app, app_assoc_str; [reflexivity|].
  assert (Hne : h <> EmptyString) by (intros ->; discriminate).
  rewrite <- app_assoc_str, endswith_app_nonempty by exact Hne.
  destruct (endswith h "/") eqn:E; [|reflexivity].
  apply endswith_char_has in E.
  rewrite (all_chars_not_has _ "/"%char h Hhc) in E by reflexivity. discriminate.
Qed.

Lemma all_chars_take (f : ascii -> bool) (n : nat) (s : string) :
  Url.all_chars f s = true -> Url.all_chars f (take n s) = true.
Proof.
  revert n. induction s as [|c s IH]; intros n H; destruct n; simpl in *; auto.
  apply andb_true_iff in H as [Hc Hs]. now rewrite Hc, IH.
Qed.

End NormalizeFacts.

Module NormalizeClaims.

Import StrFacts NormalizeFacts.


End NormalizeClaims.

Module CategoryFacts.
Import StrFacts.

Lemma prefix_app_space (k A C : string) :
  has_char " "%char k = false -> prefix k (A ++ " " ++ C) = prefix k A.
Proof.
  revert k; induction A as [|a A IH]; intros k Hk.
  - destruct k as [|c k]; [reflexivity|]. simpl in *.
    destruct (ascii_dec c " "%char) as [->|]; [|reflexivity].
    simpl in Hk. try rewrite char_eqb_refl in Hk. discriminate.
  - destruct k as [|c k]; [reflexivity|]. simpl in Hk |- *.
    apply orb_false_iff in Hk as [_ Hk].
    destruct (ascii_dec c a); [apply IH, Hk | reflexivity].
Qed.

Lemma contains_nil_r (k : string) : contains k EmptyString = prefix k EmptyString.
Proof. cbn [contains]. now rewrite orb_false_r. Qed.

(** A keyword without spaces occurs in [A ++ " " ++ C] iff it occurs in
    [A] or in [C]. *)
Lemma contains_app_space (k A C : string) :
  has_char " "%char k = false -> k <> EmptyString ->
  contains k (A ++ " " ++ C) = contains k A || contains k C.
Proof.
  intros Hk Hne. induction A as [|a A IH].
  - change (contains k (EmptyString ++ " " ++ C))
      with (prefix k (EmptyString ++ " " ++ C) || contains k C).
    rewrite prefix_app_space by exact Hk. now rewrite contains_nil_r.
  - change (contains k ((String a A) ++ " " ++ C))
      with (prefix k (String a A ++ " " ++ C) || contains k (A ++ " " ++ C)).
    change (contains k (String a A)) with (prefix k (String a A) || contains k A).
    rewrite prefix_app_space by exact Hk. rewrite IH.
    now rewrite orb_assoc.
Qed.

(** Tables are scanned in order: keywords absent from the text are passed over. *)
Lemma first_match_skip (text : string) (t1 t2 : list (string * string)) :
  Forall (fun k => contains k text = false) (map fst t1) ->
  Category.first_match text (t1 ++ t2) = Category.first_match text t2.
Proof.
  induction t1 as [|[k c] t1 IH]; intros H; [reflexivity|].
  inversion H as [|? ? Hk Ht]; subst. simpl. rewrite Hk. now apply IH.
Qed.

Lemma forallb_Forall_false (f : string -> bool) (l : list string) :
  forallb (fun k => negb (f k)) l = true -> Forall (fun k => f k = false) l.
Proof.
  intros H. apply Forall_forall. intros x Hx.
  eapply forallb_forall in H; [|exact Hx]. now apply negb_true_iff.
Qed.

Lemma lower_truthy (s : string) :
  (if truthy s then lower s else EmptyString) = lower s.
Proof. destruct s; reflexivity. Qed.

End CategoryFacts.

Module CategoryClaims.
Import StrFacts CategoryFacts.

Definition rb26_url := "https://support.haltech.com/portal/en/kb/haltech/rb26-wiring-guide/".
Definition rb26_title := "RB26 Wiring Guide".

(** The engine keywords declared before ["rb"] in [ENGINE_MAPPINGS]. *)
Definition keywords_before_rb : list string := map fst (firstn 41 Category.ENGINE_MAPPINGS).

(** C2 (amended): for the RB26 wiring-guide URL and title,
    [categorize_article] returns [technical-library/engines/nissan] for
    every content whose lowercased first 500 characters contain none of the
    engine keywords declared before ["rb"] (the keyword that matches the URL);
    the engine table is scanned first and in declaration order. *)
Theorem categorize_rb26_nissan (content : string)
  (Hc : Forall (fun k => contains k (take 500 (lower content)) = false) keywords_before_rb) :
  fst (Category.categorize_article rb26_url rb26_title content) = Category.nissan.
Proof.
  assert (Hshape : Forall (fun k => has_char " "%char k = false) keywords_before_rb)
    by (apply forallb_Forall_false; vm_compute; reflexivity).
  assert (Hne : Forall (fun k => String.eqb k EmptyString = false) keywords_before_rb)
    by (apply forallb_Forall_false; vm_compute; reflexivity).
  assert (HA : Forall (fun k => contains k (lower rb26_url ++ " " ++ lower rb26_title) = false)
                 keywords_before_rb)
    by (apply forallb_Forall_false; vm_compute; reflexivity).
  set (A := lower rb26_url ++ " " ++ lower rb26_title) in *.
  set (C := take 500 (lower content)) in *.
  assert (Hskip : Forall (fun k => contains k (A ++ " " ++ C) = false)
                    (map fst (firstn 41 Category.ENGINE_MAPPINGS))).
  { fold keywords_before_rb. clear -Hc Hshape Hne HA.
    induction keywords_before_rb as [|k ks IH]; [constructor|].
    inversion Hc; inversion Hshape; inversion Hne; inversion HA; subst.
    constructor; [|auto].
    rewrite contains_app_space by (try assumption; now apply String.eqb_neq).
    now apply orb_false_iff. }
  assert (Hrb : Category.first_match (A ++ " " ++ C) Category.ENGINE_MAPPINGS
                = Some Category.nissan).
  { rewrite <- (firstn_skipn 41 Category.ENGINE_MAPPINGS), first_match_skip by exact Hskip.
    replace (skipn 41 Category.ENGINE_MAPPINGS)
      with (("rb", Category.nissan) :: skipn 42 Category.ENGINE_MAPPINGS)
      by (vm_compute; reflexivity).
    cbn [Category.first_match]. rewrite contains_app_space by (vm_compute; congruence).
    replace (contains "rb" A) with true by (unfold A; vm_compute; reflexivity).
    reflexivity. }
  unfold Category.categorize_article. cbv zeta. rewrite !lower_truthy.
  replace (lower rb26_url ++ " " ++ lower rb26_title ++ " " ++ take 500 (lower content))
    with (A ++ " " ++ C) by (unfold A, C; rewrite !app_assoc_str; reflexivity).
  cbn [fold_left]. rewrite Hrb. reflexivity.
Qed.

Lemma categorize_rb26_nissan_witness :
  Forall (fun k => contains k (take 500 (lower "Engine swap notes")) = false) keywords_before_rb /\
  fst (Category.categorize_article rb26_url rb26_title "Engine swap notes") = Category.nissan.
Proof.
  assert (H : Forall (fun k => contains k (take 500 (lower "Engine swap notes")) = false)
                keywords_before_rb)
    by (apply forallb_Forall_false; vm_compute; reflexivity).
  split; [exact H | apply (categorize_rb26_nissan "Engine swap notes" H)].
Defined.

(** C2 (counterexample): the content takes part in the match, so "any content"
    is too strong: with content "BMW" the engine keyword ["bmw"], declared
    before ["rb"], wins. *)
Lemma categorize_rb26_content_bmw :
  fst (Category.categorize_article rb26_url rb26_title "BMW") = Category.bmw.
Proof. vm_compute. reflexivity. Qed.

End CategoryClaims.

Module ScopeClaims.

(** What [is_valid_url] rejects.  (1) a URL whose parsed
    netloc does not start with [support.haltech.com] gives [False];
    (2) a URL whose lowercased text contains an exclusion pattern is never
    accepted; (3) a non-empty URL that [urlparse] refuses (unbalanced
    brackets in the netloc) raises [ValueError]; (4) an accepted URL has a
    netloc starting with [support.haltech.com] and no exclusion pattern in
    its lowercased text. *)
Theorem is_valid_url_rejects (u : string) :
  (forall r, Url.urlparse u EmptyString = Some r ->
             startswith (Url.p_netloc r) "support.haltech.com" = false ->
             is_valid_url u = Some false) /\
  (forall p, In p Config.EXCLUDE_PATTERNS -> contains p (lower u) = true ->
             is_valid_url u <> Some true) /\
  (truthy u = true -> Url.urlparse u EmptyString = None -> is_valid_url u = None) /\
  (is_valid_url u = Some true ->
     (exists r, Url.urlparse u EmptyString = Some r /\
                startswith (Url.p_netloc r) "support.haltech.com" = true) /\
     Forall (fun p => contains p (lower u) = false) Config.EXCLUDE_PATTERNS).
Proof.
  unfold is_valid_url. destruct (truthy u); cbn [negb];
    [|split; [|split; [|split]]; intros; try discriminate; reflexivity].
  destruct (Url.urlparse u EmptyString) as [r|] eqn:Ep.
  - split; [|split; [|split]].
    + intros r' Hr Hs. injection Hr as <-. now rewrite Hs.
    + intros p Hin Hc.
      assert (Hex : existsb (fun pattern => contains pattern (lower u)) Config.EXCLUDE_PATTERNS
                    = true) by (apply existsb_exists; eauto).
      destruct (startswith (Url.p_netloc r) "support.haltech.com"); cbn [negb];
        [|discriminate].
      rewrite Hex. discriminate.
    + intros _ Hn. discriminate Hn.
    + intros Hb. destruct (startswith (Url.p_netloc r) "support.haltech.com") eqn:Es;
        cbn [negb] in Hb; [|discriminate]. split; [eauto|].
      destruct (existsb (fun pattern => contains pattern (lower u)) Config.EXCLUDE_PATTERNS)
        eqn:Ee; [discriminate|].
      apply Forall_forall. intros p Hin.
      destruct (contains p (lower u)) eqn:Ec; [|reflexivity].
      assert (Hex : existsb (fun pattern => contains pattern (lower u)) Config.EXCLUDE_PATTERNS
                    = true) by (apply existsb_exists; eauto).
      congruence.
  - split; [|split; [|split]]; intros; try discriminate; reflexivity.
Qed.

(** C4 (code bug): the test meant to "check if URL belongs to the target
    domain" is a prefix test on the netloc, so URLs of other hosts are
    accepted: a host that begins with [support.haltech.com], and a netloc
    whose user part is [support.haltech.com]. *)
Lemma is_valid_url_other_host :
  (is_valid_url "https://support.haltech.com.example.org/kb" = Some true /\
   option_map Url.hostname (Url.urlparse "https://support.haltech.com.example.org/kb" EmptyString)
   = Some (Some "support.haltech.com.example.org")) /\
  (is_valid_url "https://support.haltech.com@evil.example/kb" = Some true /\
   option_map Url.hostname (Url.urlparse "https://support.haltech.com@evil.example/kb" EmptyString)
   = Some (Some "evil.example")).
Proof. split; split; vm_compute; reflexivity. Qed.

End ScopeClaims.

Module FilenameFacts.
Import StrFacts.

Lemma has_char_remove_self (c : ascii) (s : string) : has_char c (remove_char c s) = false.
Proof.
  induction s as [|d s IH]; simpl; [reflexivity|].
  destruct (char_eqb c d) eqn:E; simpl; [exact IH|]. now rewrite E, IH.
Qed.

Lemma has_char_remove (c d : ascii) (s : string) :
  has_char d (remove_char c s) = true -> has_char d s = true.
Proof.
  induction s as [|x s IH]; simpl; [discriminate|].
  destruct (char_eqb c x); simpl; intros H.
  - rewrite IH by exact H. apply orb_true_r.
  - apply orb_true_iff in H as [H|H]; [now rewrite H | rewrite IH by exact H; apply orb_true_r].
Qed.

Definition remove_all (cs : list ascii) (s : string) : string :=
  fold_left (fun f c => remove_char c f) cs s.

Lemma remove_all_mono (cs : list ascii) (s : string) (d : ascii) :
  has_char d (remove_all cs s) = true -> has_char d s = true.
Proof.
  unfold remove_all. revert s; induction cs as [|c cs IH]; intros s H; simpl in H; [exact H|].
  apply IH in H. now apply has_char_remove in H.
Qed.

Lemma remove_all_gone (cs : list ascii) (s : string) (d : ascii) :
  In d cs -> has_char d (remove_all cs s) = false.
Proof.
  unfold remove_all. revert s; induction cs as [|c cs IH]; intros s Hin; [destruct Hin|].
  simpl. destruct Hin as [->|Hin]; [|now apply IH].
  destruct (has_char d (fold_left (fun f c => remove_char c f) cs (remove_char d s))) eqn:E;
    [|reflexivity].
  apply remove_all_mono in E. now rewrite has_char_remove_self in E.
Qed.

Lemma remove_all_app (cs : list ascii) (Y e : string) :
  Forall (fun c => has_char c e = false) cs ->
  remove_all cs (Y ++ e) = remove_all cs Y ++ e.
Proof.
  unfold remove_all. revert Y; induction cs as [|c cs IH]; intros Y H; [reflexivity|].
  inversion H as [|? ? Hc Hcs]; subst. simpl.
  rewrite remove_char_app, (remove_char_notin c e Hc). now apply IH.
Qed.

Lemma collapse_ws_mono (b : bool) (s : string) (d : ascii) :
  has_char d (collapse_ws_aux b s) = true -> has_char d s = true \/ d = " "%char.
Proof.
  revert b; induction s as [|c s IH]; intros b H; simpl in H; [discriminate|].
  simpl. destruct (is_space c), b; simpl in H.
  - destruct (IH true H) as [H'|H']; [left; now rewrite H', orb_true_r | now right].
  - apply orb_true_iff in H as [H|H].
    + right. now apply char_eqb_true in H.
    + destruct (IH true H) as [H'|H']; [left; now rewrite H', orb_true_r | now right].
  - apply orb_true_iff in H as [H|H]; [left; now rewrite H|].
    destruct (IH false H) as [H'|H']; [left; now rewrite H', orb_true_r | now right].
  - apply orb_true_iff in H as [H|H]; [left; now rewrite H|].
    destruct (IH false H) as [H'|H']; [left; now rewrite H', orb_true_r | now right].
Qed.

Lemma collapse_ws_nospace (b : bool) (e : string) :
  Url.all_chars (fun c => negb (is_space c)) e = true -> collapse_ws_aux b e = e.
Proof.
  revert b; induction e as [|c e IH]; intros b H; simpl in *; [reflexivity|].
  apply andb_true_iff in H as [Hc He]. apply negb_true_iff in Hc.
  rewrite Hc. now rewrite IH.
Qed.

Lemma collapse_ws_app (b : bool) (Z e : string) :
  Url.all_chars (fun c => negb (is_space c)) e = true ->
  exists W, collapse_ws_aux b (Z ++ e) = W ++ e.
Proof.
  intros He. revert b; induction Z as [|c Z IH]; intros b.
  - exists EmptyString. now apply collapse_ws_nospace.
  - simpl. destruct (is_space c), b.
    + apply IH.
    + destruct (IH true) as [W HW]. exists (String " "%char W). now rewrite HW.
    + destruct (IH false) as [W HW]. exists (String c W). now rewrite HW.
    + destruct (IH false) as [W HW]. exists (String c W). now rewrite HW.
Qed.

Lemma has_char_rev (d : ascii) (s : string) : has_char d (rev s) = has_char d s.
Proof.
  induction s as [|c s IH]; simpl; [reflexivity|].
  rewrite has_char_app, IH. simpl. rewrite orb_false_r. apply orb_comm.
Qed.

Lemma lstrip_mono (f : ascii -> bool) (s : string) (d : ascii) :
  has_char d (lstrip_by f s) = true -> has_char d s = true.
Proof.
  induction s as [|c s IH]; simpl; [discriminate|].
  destruct (f c); [intros H; rewrite IH by exact H; apply orb_true_r | exact (fun H => H)].
Qed.

Lemma strip_mono (s : string) (d : ascii) :
  has_char d (strip s) = true -> has_char d s = true.
Proof.
  unfold strip, strip_by, rstrip_by. intros H.
  rewrite has_char_rev in H. apply lstrip_mono in H. rewrite has_char_rev in H.
  now apply lstrip_mono in H.
Qed.

Lemma lstrip_app (f : ascii -> bool) (Z e : string) (c : ascii) :
  f c = false -> exists W, lstrip_by f (Z ++ String c e) = W ++ String c e.
Proof.
  intros Hc. induction Z as [|x Z IH]; simpl.
  - exists EmptyString. now rewrite Hc.
  - destruct (f x); [exact IH|]. now exists (String x Z).
Qed.

Lemma rev_app (a b : string) : rev (a ++ b) = rev b ++ rev a.
Proof.
  induction a as [|x a IH]; simpl; [now rewrite app_nil_r_str|].
  now rewrite IH, app_assoc_str.
Qed.

Lemma rev_rev (s : string) : rev (rev s) = s.
Proof. induction s as [|c s IH]; simpl; [reflexivity|]. now rewrite rev_app, IH. Qed.

Lemma rstrip_keep (f : ascii -> bool) (s r : string) (c : ascii) :
  rev s = String c r -> f c = false -> rstrip_by f s = s.
Proof.
  intros Hr Hc. unfold rstrip_by. rewrite Hr. simpl. rewrite Hc, <- Hr. apply rev_rev.
Qed.

Lemma strip_suffix (W e e' r : string) (c0 c1 : ascii) :
  e = String c0 e' -> is_space c0 = false ->
  rev e = String c1 r -> is_space c1 = false ->
  exists W', strip (W ++ e) = W' ++ e.
Proof.
  intros He H0 Hr H1. unfold strip, strip_by. subst e.
  destruct (lstrip_app is_space W e' c0 H0) as [W'' HW]. rewrite HW.
  exists W''. apply (rstrip_keep _ _ (r ++ rev W'') c1); [|exact H1].
  rewrite rev_app, Hr. reflexivity.
Qed.

(** The image extensions: no invalid character, no whitespace, and
    non-whitespace first and last characters. *)
Lemma ext_facts (e : string) :
  In e Config.IMAGE_EXTENSIONS ->
  Forall (fun c => has_char c e = false) invalid_chars /\
  Url.all_chars (fun c => negb (is_space c)) e = true /\
  (exists c0 e', e = String c0 e' /\ is_space c0 = false) /\
  (exists c1 r, rev e = String c1 r /\ is_space c1 = false).
Proof.
  intros H. simpl in H.
  repeat (destruct H as [<-|H];
          [split; [repeat constructor|split; [reflexivity|
             split; eexists _, _; split; reflexivity]]|]).
  destruct H.
Qed.

Lemma clean_filename_suffix (Y e : string) :
  In e Config.IMAGE_EXTENSIONS -> exists W, clean_filename (Y ++ e) = W ++ e.
Proof.
  intros Hin. destruct (ext_facts e Hin) as [Hinv [Hsp [[c0 [e' [He0 H0]]] [c1 [r [Hr H1]]]]]].
  unfold clean_filename. cbv zeta.
  change (fold_left (fun f c => remove_char c f) invalid_chars (Y ++ e))
    with (remove_all invalid_chars (Y ++ e)).
  rewrite remove_all_app by exact Hinv. unfold collapse_ws.
  destruct (collapse_ws_app false (remove_all invalid_chars Y) e Hsp) as [W1 HW1].
  rewrite HW1. exact (strip_suffix W1 e e' r c0 c1 He0 H0 Hr H1).
Qed.

Lemma clean_filename_valid (s : string) (d : ascii) :
  In d invalid_chars -> has_char d (clean_filename s) = false.
Proof.
  intros Hin. unfold clean_filename. cbv zeta.
  change (fold_left (fun f c => remove_char c f) invalid_chars s)
    with (remove_all invalid_chars s).
  destruct (has_char d (strip (collapse_ws (remove_all invalid_chars s)))) eqn:E;
    [|reflexivity].
  apply strip_mono, collapse_ws_mono in E as [E|E].
  - now rewrite remove_all_gone in E.
  - subst d. simpl in Hin. exfalso.
    repeat (destruct Hin as [Hin|Hin]; [discriminate Hin|]). exact Hin.
Qed.

(** What the cleaned name of [Y ++ e] satisfies, [e] an image extension. *)
Lemma clean_filename_image (Y e : string) :
  In e Config.IMAGE_EXTENSIONS ->
  truthy (clean_filename (Y ++ e)) = true /\
  existsb (endswith (clean_filename (Y ++ e))) Config.IMAGE_EXTENSIONS = true /\
  Forall (fun c => has_char c (clean_filename (Y ++ e)) = false) invalid_chars.
Proof.
  intros Hin. destruct (clean_filename_suffix Y e Hin) as [W HW].
  destruct (ext_facts e Hin) as [_ [_ [[c0 [e' [He0 _]]] _]]].
  split; [|split].
  - rewrite HW, He0. destruct W; reflexivity.
  - apply existsb_exists. exists e. split; [exact Hin|]. apply endswith_spec. eauto.
  - apply Forall_forall. intros d Hd. now apply clean_filename_valid.
Qed.

End FilenameFacts.

Module FilenameClaims.
Import StrFacts FilenameFacts.

(** C10 (amended): for every URL that [urlparse] accepts and every index,
    [get_image_filename] returns a non-empty name that ends with one of the
    image extensions and holds none of the characters < > : | ? * and the
    double quote; it returns nothing (raises [ValueError]) exactly when
    [urlparse] refuses the URL. *)
Theorem get_image_filename_valid (url : string) (index : option Z) :
  match get_image_filename url index with
  | Some fn =>
      truthy fn = true /\
      existsb (endswith fn) Config.IMAGE_EXTENSIONS = true /\
      Forall (fun c => has_char c fn = false) invalid_chars
  | None => Url.urlparse url EmptyString = None
  end.
Proof.
  unfold get_image_filename.
  destruct (Url.urlparse url EmptyString) as [parsed|]; [|reflexivity]. cbv zeta.
  generalize (if negb (truthy (path_name (Url.p_path parsed))) ||
                 String.eqb (path_name (Url.p_path parsed)) "/"
              then "image_" ++ str_of_Z match index with Some i => i | None => 0%Z end
              else path_name (Url.p_path parsed)) as F. intros F.
  destruct (existsb (endswith F) Config.IMAGE_EXTENSIONS) eqn:E; cbn [negb].
  - apply existsb_exists in E as [e [Hin He]]. apply endswith_spec in He as [Y ->].
    exact (clean_filename_image Y e Hin).
  - apply (clean_filename_image F ".jpg"). simpl. auto.
Qed.

(** C10 (counterexample): "every URL string" is too strong: a URL with an
    unbalanced bracket in its netloc makes [urlparse] raise [ValueError]. *)
Lemma get_image_filename_raises :
  get_image_filename "http://[bad/x.png" None = None.
Proof. vm_compute. reflexivity. Qed.

End FilenameClaims.

Module ConverterClaims.
Import Converter.

(** C9: [convert] never raises: for any behaviour of the three stages
    ([_clean_html], [md], [_post_process_markdown]) and any input, it
    returns a string, which is the post-processed Markdown when every stage
    returns, and the empty string when some stage raises an [Exception]. *)
Theorem convert_never_raises
  (clean_html : string -> option string -> result string)
  (markdownify post_process_markdown : string -> result string)
  (html_content : string) (base_url : option string) :
  exists s, convert clean_html markdownify post_process_markdown html_content base_url = Ok s /\
    ((exists c m, clean_html html_content base_url = Ok c /\ markdownify c = Ok m /\
                  post_process_markdown m = Ok s) \/
     (s = EmptyString /\
      ((exists e, clean_html html_content base_url = Raise e) \/
       (exists c e, clean_html html_content base_url = Ok c /\ markdownify c = Raise e) \/
       (exists c m e, clean_html html_content base_url = Ok c /\ markdownify c = Ok m /\
                      post_process_markdown m = Raise e)))).
Proof.
  unfold convert.
  destruct (clean_html html_content base_url) as [c|e] eqn:Ec.
  - destruct (markdownify c) as [m|e] eqn:Em.
    + destruct (post_process_markdown m) as [s|e] eqn:Ep.
      * exists s. split; [reflexivity|]. left. eauto.
      * exists EmptyString. split; [reflexivity|]. right. split; [reflexivity|].
        right. right. eauto 6.
    + exists EmptyString. split; [reflexivity|]. right. split; [reflexivity|]. right. left. eauto.
  - exists EmptyString. split; [reflexivity|]. right. split; [reflexivity|]. left. eauto.
Qed.

End ConverterClaims.

Module ExtractFacts.
Import Extract.

Section Sort.
Variable Elem : Type.

Definition head_max (l : list (Elem * nat)) : Prop :=
  match l with
  | [] => True
  | h :: t => Forall (fun y => snd y <= snd h) t
  end.

Lemma insert_desc_in (x z : Elem * nat) (l : list (Elem * nat)) :
  In z (insert_desc Elem x l) <-> z = x \/ In z l.
Proof.
  induction l as [|y l IH]; simpl; [intuition congruence|].
  destruct (snd y <? snd x); simpl; [intuition congruence|]. rewrite IH. tauto.
Qed.

Lemma insert_desc_head_max (x : Elem * nat) (l : list (Elem * nat)) :
  head_max l -> head_max (insert_desc Elem x l).
Proof.
  destruct l as [|y l]; simpl; [constructor|]. intros H.
  destruct (snd y <? snd x) eqn:E.
  - apply Nat.ltb_lt in E. simpl. constructor; [lia|].
    eapply Forall_impl; [|exact H]. intros a Ha. simpl in Ha. lia.
  - apply Nat.ltb_ge in E. simpl. apply Forall_forall. intros z Hz.
    apply insert_desc_in in Hz as [->|Hz]; [exact E|].
    eapply Forall_forall in H; [exact H | exact Hz].
Qed.

Lemma fold_insert_in (l acc : list (Elem * nat)) (z : Elem * nat) :
  In z (fold_left (fun acc x => insert_desc Elem x acc) l acc) <-> In z l \/ In z acc.
Proof.
  revert acc; induction l as [|x l IH]; intros acc; simpl; [tauto|].
  rewrite IH, insert_desc_in. intuition congruence.
Qed.

Lemma fold_insert_head_max (l acc : list (Elem * nat)) :
  head_max acc -> head_max (fold_left (fun acc x => insert_desc Elem x acc) l acc).
Proof.
  revert acc; induction l as [|x l IH]; intros acc H; simpl; [exact H|].
  apply IH, insert_desc_head_max, H.
Qed.

(** The first entry of [sort_desc l] is an entry of [l] with the largest score. *)
Lemma sort_desc_head (l rest : list (Elem * nat)) (h : Elem * nat) :
  sort_desc Elem l = h :: rest -> In h l /\ forall y, In y l -> snd y <= snd h.
Proof.
  unfold sort_desc. intros E. split.
  - assert (Hin : In h (fold_left (fun acc x => insert_desc Elem x acc) l [])).
    { rewrite E. left. reflexivity. }
    apply fold_insert_in in Hin as [Hin|[]]. exact Hin.
  - intros y Hy.
    assert (Hm := fold_insert_head_max l [] I). rewrite E in Hm. simpl in Hm.
    assert (Hin : In y (fold_left (fun acc x => insert_desc Elem x acc) l [])).
    { apply fold_insert_in. now left. }
    rewrite E in Hin. destruct Hin as [<-|Hin]; [lia|].
    eapply Forall_forall in Hm; [exact Hm | exact Hin].
Qed.

End Sort.

End ExtractFacts.

Module ExtractClaims.
Import Extract ExtractFacts.

Section Dom.
Variables Soup Elem : Type.
Variable select_one : Soup -> string -> option Elem.
Variable decompose_unwanted : Soup -> Elem -> Soup.
Variable get_text : Soup -> Elem -> string.
Variable render : Soup -> Elem -> string.
Variable cleaned_copy : Soup -> Soup.
Variable block_containers : Soup -> list Elem.
Variable p_count : Soup -> Elem -> nat.
Variable body : Soup -> option Elem.

Let cascade' := cascade Soup Elem select_one decompose_unwanted get_text render cleaned_copy
                  block_containers p_count body.
Let heuristic := extract_content_heuristic Soup Elem get_text render cleaned_copy
                   block_containers p_count body.
Let score' := score Soup Elem get_text p_count.

(** C8: (1) a selector whose element, after the unwanted parts are
    decomposed, has a text of at most 100 characters is not accepted: the
    cascade goes on with the next selector on the same (mutated) tree;
    (2) when no selector is left, the heuristic decides; (3) a selector
    result is accepted only with more than 100 characters of text;
    (4) when some block container of the cleaned copy scores more than 200
    (text length + 50 per paragraph), the heuristic returns a container of
    the largest score, which is above 200; (5) otherwise it returns the
    body, or the empty string when there is none. *)
Theorem extract_content_spec :
  (forall sel rest soup c,
     select_one soup sel = Some c ->
     String.length (get_text (decompose_unwanted soup c) c) <= 100 ->
     cascade' (sel :: rest) soup = cascade' rest (decompose_unwanted soup c)) /\
  (forall soup, cascade' [] soup = heuristic soup) /\
  (forall sels soup,
     (exists sel soup' c, In sel sels /\ select_one soup' sel = Some c /\
        100 < String.length (get_text (decompose_unwanted soup' c) c) /\
        cascade' sels soup = render (decompose_unwanted soup' c) c) \/
     (exists soup', cascade' sels soup = heuristic soup')) /\
  (forall soup,
     (exists e, In e (block_containers (cleaned_copy soup)) /\
                200 < score' (cleaned_copy soup) e) ->
     exists best, In best (block_containers (cleaned_copy soup)) /\
       200 < score' (cleaned_copy soup) best /\
       (forall e, In e (block_containers (cleaned_copy soup)) ->
                  score' (cleaned_copy soup) e <= score' (cleaned_copy soup) best) /\
       heuristic soup = render (cleaned_copy soup) best) /\
  (forall soup,
     (forall e, In e (block_containers (cleaned_copy soup)) ->
                score' (cleaned_copy soup) e <= 200) ->
     heuristic soup = match body (cleaned_copy soup) with
                      | Some b => render (cleaned_copy soup) b
                      | None => EmptyString
                      end).
Proof.
  split; [|split; [|split; [|split]]].
  - intros sel rest soup c Hs Hl. unfold cascade'. simpl. rewrite Hs.
    replace (100 <? String.length (get_text (decompose_unwanted soup c) c)) with false
      by (symmetry; apply Nat.ltb_ge; exact Hl).
    reflexivity.
  - intros soup. reflexivity.
  - intros sels. unfold cascade'. induction sels as [|sel sels IH]; intros soup.
    + right. exists soup. reflexivity.
    + simpl. destruct (select_one soup sel) as [c|] eqn:Hs.
      * destruct (100 <? String.length (get_text (decompose_unwanted soup c) c)) eqn:El.
        -- left. exists sel, soup, c. apply Nat.ltb_lt in El. split; [now left|]. auto.
        -- destruct (IH (decompose_unwanted soup c)) as [(s' & so & c' & H1 & H2)|H];
             [left; exists s', so, c'; split; [now right|exact H2] | right; exact H].
      * destruct (IH soup) as [(s' & so & c' & H1 & H2)|H];
          [left; exists s', so, c'; split; [now right|exact H2] | right; exact H].
  - intros soup [e [He Hsc]]. unfold heuristic, extract_content_heuristic. cbv zeta.
    set (sc := cleaned_copy soup) in *.
    set (containers := filter (fun es => 200 <? snd es)
                          (map (fun e => (e, score Soup Elem get_text p_count sc e))
                               (block_containers sc))).
    assert (Hin : In (e, score' sc e) containers).
    { apply filter_In. split; [apply in_map_iff; eauto | now apply Nat.ltb_lt]. }
    destruct (sort_desc (Elem) containers) as [|[best s] rest] eqn:Es.
    + exfalso. assert (Hf := fold_insert_in Elem containers [] (e, score' sc e)).
      unfold sort_desc in Es. rewrite Es in Hf. simpl in Hf. tauto.
    + apply sort_desc_head in Es as [Hb Hmax].
      apply filter_In in Hb as [Hb Hs]. apply in_map_iff in Hb as [b [Eb Hb]].
      injection Eb as Eb1 Eb2. subst best s. apply Nat.ltb_lt in Hs. simpl in Hs.
      exists b. split; [exact Hb|]. split; [exact Hs|]. split; [|reflexivity].
      intros e' He'. destruct (Nat.ltb_spec 200 (score' sc e')).
      * apply (Hmax (e', score' sc e')). apply filter_In.
        split; [apply in_map_iff; eauto | now apply Nat.ltb_lt].
      * unfold score' in *. lia.
  - intros soup Hle. unfold heuristic, extract_content_heuristic. cbv zeta.
    set (sc := cleaned_copy soup) in *.
    assert (Hnil : forall l, (forall e, In e l -> score' sc e <= 200) ->
              filter (fun es => 200 <? snd es)
                     (map (fun e => (e, score Soup Elem get_text p_count sc e)) l) = []).
    { induction l as [|x l IH]; intros H; [reflexivity|]. simpl.
      replace (200 <? score Soup Elem get_text p_count sc x) with false
        by (symmetry; apply Nat.ltb_ge; apply H; now left).
      apply IH. intros e' He'. apply H. now right. }
    rewrite (Hnil _ Hle). reflexivity.
Qed.

End Dom.

End ExtractClaims.

Module SchedulerFacts.
Import Scheduler.

Lemma mem_set_add (u v : string) (xs : list string) :
  mem u (set_add v xs) = mem u xs || String.eqb u v.
Proof.
  unfold set_add. destruct (mem v xs) eqn:Ev.
  - destruct (String.eqb_spec u v) as [->|]; [now rewrite Ev | now rewrite orb_false_r].
  - unfold mem. rewrite existsb_app. simpl. now rewrite orb_false_r.
Qed.

Definition attempts_of (u : string) (st : State) : list (string * nat) :=
  filter (fun a => String.eqb (fst a) u) (attempts st).

Lemma filter_app_str (f : string * nat -> bool) (l1 l2 : list (string * nat)) :
  filter f (l1 ++ l2) = (filter f l1 ++ filter f l2)%list.
Proof. induction l1 as [|x l1 IH]; simpl; [reflexivity|]. destruct (f x); simpl; now rewrite IH. Qed.

Lemma filter_seq_same (u : string) (rc k : nat) :
  filter (fun a => String.eqb (fst a) u) (map (fun i => (u, i)) (seq rc k))
  = map (fun i => (u, i)) (seq rc k).
Proof.
  revert rc; induction k as [|k IH]; intros rc; simpl; [reflexivity|].
  rewrite String.eqb_refl. now rewrite IH.
Qed.

Lemma filter_seq_other (u v : string) (rc k : nat) :
  v <> u ->
  filter (fun a => String.eqb (fst a) u) (map (fun i => (v, i)) (seq rc k)) = [].
Proof.
  intros Hvu. revert rc; induction k as [|k IH]; intros rc; simpl; [reflexivity|].
  apply String.eqb_neq in Hvu. now rewrite Hvu, IH.
Qed.

(** One call [_scrape_article(url, retry_count)] with its retries: it logs
    the attempts [retry_count], [retry_count + 1], ..., [retry_count + k - 1],
    at most up to [MAX_RETRIES], and it either leaves [failed_urls] alone or
    adds [url] after the attempt with [retry_count = MAX_RETRIES]. *)
Lemma scrape_go_shape (outcome : string -> nat -> attempt_outcome)
  (fuel : nat) (url : string) (rc : nat) (st : State) :
  rc + fuel = Config.MAX_RETRIES ->
  exists k,
    attempts (scrape_go outcome fuel url rc st)
      = (attempts st ++ map (fun i => (url, i)) (seq rc k))%list /\
    rc + k <= S Config.MAX_RETRIES /\
    (failed_urls (scrape_go outcome fuel url rc st) = failed_urls st \/
     (failed_urls (scrape_go outcome fuel url rc st) = set_add url (failed_urls st) /\
      rc + k = S Config.MAX_RETRIES)).
Proof.
  revert rc st; induction fuel as [|fuel IH]; intros rc st Hf.
  - simpl. destruct (mem url (scraped_urls st)).
    + exists 0. rewrite app_nil_r. split; [reflexivity|]. split; [lia|]. now left.
    + rewrite Nat.add_0_r in Hf. subst rc.
      destruct (outcome url Config.MAX_RETRIES); simpl; exists 1;
        (split; [reflexivity|]); (split; [unfold Config.MAX_RETRIES; lia|]);
        (try now left); right; split; reflexivity.
  - cbn [scrape_go]. destruct (mem url (scraped_urls st)).
    + exists 0. rewrite app_nil_r. split; [reflexivity|]. split; [lia|]. now left.
    + assert (Hlt : (rc <? Config.MAX_RETRIES) = true) by (apply Nat.ltb_lt; lia).
      set (st1 := log_attempt url rc st).
      assert (Hrec : forall st', attempts st' = attempts st1 -> failed_urls st' = failed_urls st ->
        exists k,
          attempts (scrape_go outcome fuel url (S rc) st')
            = (attempts st ++ map (fun i => (url, i)) (seq rc k))%list /\
          rc + k <= S Config.MAX_RETRIES /\
          (failed_urls (scrape_go outcome fuel url (S rc) st') = failed_urls st \/
           (failed_urls (scrape_go outcome fuel url (S rc) st') = set_add url (failed_urls st) /\
            rc + k = S Config.MAX_RETRIES))).
      { intros st' Ha Hfl. destruct (IH (S rc) st') as [k [Hk1 [Hk2 Hk3]]]; [lia|].
        exists (S k). rewrite Hk1, Ha. simpl. rewrite <- app_assoc. split; [reflexivity|].
        split; [lia|]. rewrite Hfl in Hk3. destruct Hk3 as [H|[H1 H2]]; [now left|].
        right. split; [exact H1 | lia]. }
      destruct (outcome url rc); cbv iota beta; rewrite ?Hlt.
      * apply Hrec; reflexivity.
      * exists 1. simpl. split; [reflexivity|]. split; [lia|]. now left.
      * apply Hrec; reflexivity.
Qed.

Lemma scrape_article_shape (outcome : string -> nat -> attempt_outcome)
  (url : string) (st : State) :
  exists k,
    attempts (scrape_article outcome url 0 st)
      = (attempts st ++ map (fun i => (url, i)) (seq 0 k))%list /\
    k <= S Config.MAX_RETRIES /\
    (failed_urls (scrape_article outcome url 0 st) = failed_urls st \/
     (failed_urls (scrape_article outcome url 0 st) = set_add url (failed_urls st) /\
      k = S Config.MAX_RETRIES)).
Proof. apply (scrape_go_shape outcome (Config.MAX_RETRIES - 0) url 0 st). reflexivity. Qed.

(** A call for another URL leaves the attempts and the failure of [u] alone. *)
Lemma scrape_article_other (outcome : string -> nat -> attempt_outcome)
  (u v : string) (st : State) :
  v <> u ->
  attempts_of u (scrape_article outcome v 0 st) = attempts_of u st /\
  mem u (failed_urls (scrape_article outcome v 0 st)) = mem u (failed_urls st).
Proof.
  intros Hvu. destruct (scrape_article_shape outcome v st) as [k [H1 [_ H3]]].
  unfold attempts_of. rewrite H1, filter_app_str, filter_seq_other, app_nil_r by exact Hvu.
  split; [reflexivity|]. destruct H3 as [H|[H _]]; rewrite H; [reflexivity|].
  rewrite mem_set_add. apply not_eq_sym, String.eqb_neq in Hvu. now rewrite Hvu, orb_false_r.
Qed.

Lemma fold_other (outcome : string -> nat -> attempt_outcome)
  (u : string) (A : list string) (st : State) :
  ~ In u A ->
  attempts_of u (fold_left (fun st url => scrape_article outcome url 0 st) A st) = attempts_of u st /\
  mem u (failed_urls (fold_left (fun st url => scrape_article outcome url 0 st) A st))
  = mem u (failed_urls st).
Proof.
  revert st; induction A as [|v A IH]; intros st Hn; [split; reflexivity|].
  simpl. destruct (IH (scrape_article outcome v 0 st)) as [H1 H2]; [intros H; apply Hn; now right|].
  rewrite H1, H2. apply scrape_article_other. intros ->. apply Hn. now left.
Qed.

End SchedulerFacts.

Module SchedulerClaims.
Import Scheduler SchedulerFacts.

(** C5: in a run over a set of distinct article URLs, a URL [u] is attempted
    with [retry_count] = 0, 1, ..., k - 1 and nothing else, where
    [k <= MAX_RETRIES + 1]; when [u] ends in [failed_urls], [k] is exactly
    [MAX_RETRIES + 1]: it was added after the last retry and never attempted
    afterwards. *)
Theorem scrape_retry_bound (outcome : string -> nat -> attempt_outcome)
  (A : list string) (u : string) (Hnd : NoDup A) :
  exists k, k <= Config.MAX_RETRIES + 1 /\
    attempts_of u (scrape_articles outcome A) = map (fun i => (u, i)) (seq 0 k) /\
    (mem u (failed_urls (scrape_articles outcome A)) = true -> k = Config.MAX_RETRIES + 1).
Proof.
  unfold scrape_articles.
  destruct (in_dec String.string_dec u A) as [Hin|Hn].
  - apply in_split in Hin as [A1 [A2 ->]].
    apply NoDup_remove_2 in Hnd. rewrite in_app_iff in Hnd.
    rewrite fold_left_app. simpl.
    destruct (fold_other outcome u A1 init) as [H1 H2]; [tauto|].
    set (st1 := fold_left (fun st url => scrape_article outcome url 0 st) A1 init) in *.
    destruct (scrape_article_shape outcome u st1) as [k [Hk1 [Hk2 Hk3]]].
    destruct (fold_other outcome u A2 (scrape_article outcome u 0 st1)) as [H3 H4]; [tauto|].
    exists k. rewrite H3, H4. split; [unfold Config.MAX_RETRIES in *; lia|]. split.
    + unfold attempts_of in *. rewrite Hk1, filter_app_str, H1, filter_seq_same. reflexivity.
    + intros Hm. destruct Hk3 as [Hf|[_ Hf]]; [|unfold Config.MAX_RETRIES in *; lia].
      rewrite Hf, H2 in Hm. discriminate.
  - destruct (fold_other outcome u A init Hn) as [H1 H2].
    exists 0. rewrite H1, H2. split; [lia|]. split; [reflexivity|]. discriminate.
Qed.

Lemma scrape_retry_bound_witness :
  NoDup ["https://support.haltech.com/portal/en/kb/articles/a"] /\
  exists k, k <= Config.MAX_RETRIES + 1 /\
    attempts_of "https://support.haltech.com/portal/en/kb/articles/a"
      (scrape_articles (fun _ _ => Raised_before_save)
         ["https://support.haltech.com/portal/en/kb/articles/a"])
    = map (fun i => ("https://support.haltech.com/portal/en/kb/articles/a", i)) (seq 0 k) /\
    (mem "https://support.haltech.com/portal/en/kb/articles/a"
       (failed_urls (scrape_articles (fun _ _ => Raised_before_save)
                       ["https://support.haltech.com/portal/en/kb/articles/a"])) = true ->
     k = Config.MAX_RETRIES + 1).
Proof.
  assert (Hnd : NoDup ["https://support.haltech.com/portal/en/kb/articles/a"])
    by (constructor; [intros [] | constructor]).
  split; [exact Hnd|].
  exact (scrape_retry_bound (fun _ _ => Raised_before_save) _ _ Hnd).
Defined.

(** The attempt outcome of C1's failing input: every attempt raises before
    the save, except the last one ([retry_count = MAX_RETRIES]), which saves
    the document and then fails to close the page. *)
Definition close_fails_on_last (url : string) (retry_count : nat) : attempt_outcome :=
  if retry_count =? Config.MAX_RETRIES then Saved_then_close_raised else Raised_before_save.

(** C1 (code bug): [scraped_urls] and [failed_urls] need not partition the
    article set: with [close_fails_on_last], the URL is added to
    [scraped_urls] on its last attempt and then, as the [finally] raises
    with the retry budget exhausted, also to [failed_urls]. *)
Theorem scrape_articles_not_partition :
  let st := scrape_articles close_fails_on_last
              ["https://support.haltech.com/portal/en/kb/articles/a"] in
  mem "https://support.haltech.com/portal/en/kb/articles/a" (scraped_urls st) = true /\
  mem "https://support.haltech.com/portal/en/kb/articles/a" (failed_urls st) = true.
Proof. vm_compute. split; reflexivity. Qed.

End SchedulerClaims.

Module ImagesFacts.
Import StrFacts FilenameFacts Images.

Lemma contains_app_suffix (W e s : string) :
  contains (W ++ e) s = true -> contains e s = true.
Proof.
  intros H. apply contains_spec in H as [a [b ->]]. apply contains_spec.
  exists (a ++ W), b. now rewrite !app_assoc_str.
Qed.

Lemma contains_dot_absent (e' X : string) :
  has_char "."%char X = false -> contains ("." ++ e') X = false.
Proof.
  intros H. destruct (contains ("." ++ e') X) eqn:E; [|reflexivity].
  apply contains_spec in E as [a [b ->]].
  rewrite !has_char_app in H. simpl in H. try rewrite char_eqb_refl in H.
  now rewrite orb_true_r in H.
Qed.

(** A name returned by [get_image_filename] ends with an image extension. *)
Lemma get_image_filename_suffix (url : string) (index : option Z) (fn : string) :
  get_image_filename url index = Some fn ->
  exists W e, In e Config.IMAGE_EXTENSIONS /\ fn = W ++ e.
Proof.
  unfold get_image_filename.
  destruct (Url.urlparse url EmptyString) as [parsed|]; [|discriminate]. cbv zeta.
  generalize (if negb (truthy (path_name (Url.p_path parsed))) ||
                 String.eqb (path_name (Url.p_path parsed)) "/"
              then "image_" ++ str_of_Z match index with Some i => i | None => 0%Z end
              else path_name (Url.p_path parsed)) as F. intros F.
  destruct (existsb (endswith F) Config.IMAGE_EXTENSIONS) eqn:E; cbn [negb];
    intros Hfn; injection Hfn as <-.
  - apply existsb_exists in E as [e [Hin He]]. apply endswith_spec in He as [Y ->].
    destruct (clean_filename_suffix Y e Hin) as [W HW]. exists W, e. split; assumption.
  - destruct (clean_filename_suffix F ".jpg") as [W HW]; [simpl; auto|].
    exists W, ".jpg". split; [simpl; auto | exact HW].
Qed.

(** [str()] of the [iterdir] generator holds no image extension. *)
Lemma iterdir_repr_no_ext (addr : string) (e : string) :
  Url.all_chars is_hex_digit addr = true -> In e Config.IMAGE_EXTENSIONS ->
  contains e (iterdir_repr addr) = false.
Proof.
  intros Ha Hin.
  assert (Hd : has_char "."%char (addr ++ ">") = false).
  { rewrite has_char_app. apply orb_false_iff. split; [|reflexivity].
    apply (all_chars_not_has is_hex_digit); [exact Ha | reflexivity]. }
  unfold iterdir_repr. simpl in Hin.
  repeat (destruct Hin as [<-|Hin];
          [simpl; exact (contains_dot_absent _ _ Hd)|]).
  destruct Hin.
Qed.

(** When the listing holds no image extension, [_ensure_image_references]
    appends nothing: it returns the Markdown unchanged (or raises). *)
Lemma ensure_loop_noop (listing rel : string) :
  (forall e, In e Config.IMAGE_EXTENSIONS -> contains e listing = false) ->
  forall images i md,
    ensure_loop listing rel i images md = Some md \/ ensure_loop listing rel i images md = None.
Proof.
  intros Hl images. induction images as [|img images IH]; intros i md; simpl; [now left|].
  destruct (negb (truthy (src img))); [apply IH|].
  destruct (normalize_url (src img) (Some EmptyString)) as [a|]; [|now right].
  destruct (get_image_filename (if truthy a then a else src img) (Some (Z.of_nat i)))
    as [fn|] eqn:Efn; [|now right].
  replace (contains fn listing) with false; [rewrite andb_false_r; apply IH|].
  symmetry. destruct (contains fn listing) eqn:Ec; [|reflexivity].
  apply get_image_filename_suffix in Efn as [W [e [Hin ->]]].
  apply contains_app_suffix in Ec. now rewrite (Hl e Hin) in Ec.
Qed.

End ImagesFacts.

Module ImagesClaims.
Import StrFacts Images ImagesFacts.

Definition rb26_article := "https://support.haltech.com/portal/en/kb/haltech/rb26-wiring-guide".
Definition diagram := {| src := "/img/diagram.png"; alt := "Wiring" |}.

(** C6: the image [/img/diagram.png], downloaded with status 200, is
    rehosted in a document three directories below the output root (any
    directory names, any file name, any state of the images directory) as
    [../../../images/diagram.png]; the same image in a document one
    directory below the root becomes [../images/diagram.png]. *)
Theorem process_images_diagram (d1 d2 d3 file listing : string) :
  process_images (fun _ => Fetched 200) listing "See ![Wiring](/img/diagram.png)"
    [diagram] rb26_article {| out_dirs := [d1; d2; d3]; out_file := file |}
  = Some "See ![Wiring](../../../images/diagram.png)" /\
  process_images (fun _ => Fetched 200) listing "See ![Wiring](/img/diagram.png)"
    [diagram] rb26_article {| out_dirs := [d1]; out_file := file |}
  = Some "See ![Wiring](../images/diagram.png)".
Proof. split; vm_compute; reflexivity. Qed.

(** C7 (code bug): [_ensure_image_references] looks the file name up in
    [str(config.IMAGES_DIR.iterdir())], the text of a generator object,
    which never contains a name with an image extension.  So an image that
    is downloaded (status 200) but not referenced in the Markdown is not
    appended: here [/img/a.png], absent from the text "Intro", leaves the
    document as "Intro", whatever the generator's address. *)
Theorem unreferenced_image_not_appended (addr : string)
  (Haddr : Url.all_chars is_hex_digit addr = true) :
  process_images (fun _ => Fetched 200) (iterdir_repr addr) "Intro"
    [{| src := "/img/a.png"; alt := "" |}] rb26_article
    {| out_dirs := ["technical-library"; "engines"; "nissan"]; out_file := "rb26.md" |}
  = Some "Intro".
Proof.
  unfold process_images.
  replace (process_loop (fun _ => Fetched 200)
             (calculate_relative_path_to_images
                {| out_dirs := ["technical-library"; "engines"; "nissan"];
                   out_file := "rb26.md" |})
             rb26_article 0 [{| src := "/img/a.png"; alt := "" |}] "Intro")
    with (Some "Intro") by (vm_compute; reflexivity).
  unfold ensure_image_references.
  destruct (ensure_loop_noop (iterdir_repr addr)
              (calculate_relative_path_to_images
                 {| out_dirs := ["technical-library"; "engines"; "nissan"];
                    out_file := "rb26.md" |})
              (fun e He => iterdir_repr_no_ext addr e Haddr He)
              [{| src := "/img/a.png"; alt := "" |}] 0 "Intro") as [H|H];
    rewrite H; [reflexivity|].
  exfalso. revert H. vm_compute. discriminate.
Qed.

Lemma unreferenced_image_not_appended_witness :
  Url.all_chars is_hex_digit "7f3a9c2e1d50" = true /\
  process_images (fun _ => Fetched 200) (iterdir_repr "7f3a9c2e1d50") "Intro"
    [{| src := "/img/a.png"; alt := "" |}] rb26_article
    {| out_dirs := ["technical-library"; "engines"; "nissan"]; out_file := "rb26.md" |}
  = Some "Intro".
Proof.
  assert (H : Url.all_chars is_hex_digit "7f3a9c2e1d50" = true) by reflexivity.
  split; [exact H | exact (unreferenced_image_not_appended "7f3a9c2e1d50" H)].
Defined.

End ImagesClaims.

(* ================================================================== *)
(** * Further properties of the code *)

Module MoreStrFacts.
Import StrFacts.

Lemma all_chars_has (f : ascii -> bool) (c : ascii) (s : string) :
  Url.all_chars f s = true -> has_char c s = true -> f c = true.
Proof.
  intros H Hc. destruct (f c) eqn:E; [reflexivity|].
  now rewrite (all_chars_not_has f c s H E) in Hc.
Qed.

Lemma split_nochar (c : ascii) (x : string) :
  has_char c x = false -> split c x = [x].
Proof.
  induction x as [|d x IH]; simpl; [reflexivity|].
  intros H. apply orb_false_iff in H as [Hd Hx]. now rewrite Hd, IH.
Qed.

Lemma split_app_char (c : ascii) (x rest : string) :
  has_char c x = false -> split c (x ++ String c EmptyString ++ rest) = x :: split c rest.
Proof.
  induction x as [|d x IH]; simpl in *; intros H.
  - now rewrite char_eqb_refl.
  - apply orb_false_iff in H as [Hd Hx]. now rewrite Hd, IH.
Qed.

Lemma join_snoc (sep y : string) (xs : list string) :
  join sep (xs ++ [y]) = fold_right (fun x acc => x ++ sep ++ acc) y xs.
Proof.
  induction xs as [|x xs IH]; [reflexivity|].
  change ((x :: xs) ++ [y])%list with (x :: (xs ++ [y]))%list.
  destruct xs as [|x' xs]; simpl in *; [reflexivity|]. now rewrite IH.
Qed.

Lemma split_fold (c : ascii) (y : string) (xs : list string) :
  Forall (fun x => has_char c x = false) xs ->
  split c (fold_right (fun x acc => x ++ String c EmptyString ++ acc) y xs)
  = (xs ++ split c y)%list.
Proof.
  induction xs as [|x xs IH]; intros H; [reflexivity|].
  inversion H as [|? ? Hx Hxs]; subst. cbn [fold_right].
  rewrite (split_app_char c x) by exact Hx. now rewrite IH.
Qed.

Lemma split_join (c : ascii) (xs : list string) (y : string) :
  Forall (fun x => has_char c x = false) (xs ++ [y]) ->
  split c (join (String c EmptyString) (xs ++ [y])) = (xs ++ [y])%list.
Proof.
  intros H. apply Forall_app in H as [Hxs Hy]. inversion Hy; subst.
  rewrite join_snoc, split_fold by exact Hxs. now rewrite split_nochar.
Qed.

Lemma prefix_take (k : nat) (s : string) : prefix (take k s) s = true.
Proof.
  revert s; induction k as [|k IH]; intros s; [apply prefix_nil|].
  destruct s as [|c s]; [reflexivity|]. simpl. destruct (Ascii.ascii_dec c c) as [_|n]; [apply IH|now destruct n].
Qed.

Lemma prefix_trans (a b c : string) :
  prefix a b = true -> prefix b c = true -> prefix a c = true.
Proof.
  rewrite !prefix_spec. intros [x ->] [y ->]. exists (x ++ y). now rewrite app_assoc_str.
Qed.

Lemma length_take (k : nat) (s : string) :
  String.length (take k s) <= k /\ String.length (take k s) <= String.length s.
Proof.
  revert s; induction k as [|k IH]; intros s; simpl; [lia|].
  destruct s as [|c s]; simpl; [lia|]. destruct (IH s); lia.
Qed.

Lemma lower_app (a b : string) : lower (a ++ b) = lower a ++ lower b.
Proof. induction a as [|c a IH]; simpl; [reflexivity|]. now rewrite IH. Qed.

Lemma lower_length (a : string) : String.length (lower a) = String.length a.
Proof. induction a as [|c a IH]; simpl; [reflexivity|]. now rewrite IH. Qed.

Lemma take_app_ge (n : nat) (a b : string) :
  n <= String.length a -> take n (a ++ b) = take n a.
Proof.
  revert n; induction a as [|c a IH]; intros n Hn; simpl in *.
  - assert (n = 0) as -> by lia. reflexivity.
  - destruct n; [reflexivity|]. simpl. rewrite IH by lia. reflexivity.
Qed.


End MoreStrFacts.

Module OutputFacts.
Import StrFacts NormalizeFacts FilenameFacts MoreStrFacts.

Lemma clean_filename_suffix_gen (Y e e' r : string) (c0 c1 : ascii) :
  Forall (fun c => has_char c e = false) invalid_chars ->
  Url.all_chars (fun c => negb (is_space c)) e = true ->
  e = String c0 e' -> is_space c0 = false ->
  rev e = String c1 r -> is_space c1 = false ->
  exists W, clean_filename (Y ++ e) = W ++ e.
Proof.
  intros Hinv Hsp He0 H0 Hr H1. unfold clean_filename. cbv zeta.
  change (fold_left (fun f c => remove_char c f) invalid_chars (Y ++ e))
    with (remove_all invalid_chars (Y ++ e)).
  rewrite remove_all_app by exact Hinv. unfold collapse_ws.
  destruct (collapse_ws_app false (remove_all invalid_chars Y) e Hsp) as [W1 HW1].
  rewrite HW1. exact (strip_suffix W1 e e' r c0 c1 He0 H0 Hr H1).
Qed.

Lemma md_invalid : Forall (fun c => has_char c ".md" = false) invalid_chars.
Proof. repeat constructor. Qed.

Lemma clean_filename_md (Y : string) : exists W, clean_filename (Y ++ ".md") = W ++ ".md".
Proof.
  apply (clean_filename_suffix_gen Y ".md" "md" "m." "."%char "d"%char md_invalid);
    reflexivity.
Qed.

Lemma split_cons (c : ascii) (s : string) : exists x r, split c s = x :: r.
Proof.
  induction s as [|d s IH]; simpl; [eauto|].
  destruct (char_eqb c d); [eauto|]. destruct IH as [x [r ->]]. eauto.
Qed.

(** The file name of [create_output_path] is the cleaned last URL part. *)
Lemma create_output_path_out_file (slugify : string -> string) (mkdir : list string -> bool)
  (url title content : string) (breadcrumbs : list string) (out : Images.OutputPath) :
  Utils.create_output_path slugify mkdir url title content breadcrumbs = Some out ->
  exists parts, Utils.extract_domain_path url = Some parts /\
    Images.out_file out = clean_filename (last parts EmptyString ++ ".md").
Proof.
  unfold Utils.create_output_path. destruct (Utils.extract_domain_path url) as [parts|] eqn:E;
    [|discriminate].
  assert (Hne : parts <> []).
  { unfold Utils.extract_domain_path in E.
    destruct (Url.urlparse url EmptyString); [|discriminate]. injection E as <-.
    match goal with |- split ?c ?s <> [] => destruct (split_cons c s) as [x [r ->]] end.
    discriminate. }
  destruct (mkdir _); [|discriminate]. intros H. injection H as <-.
  exists parts. split; [reflexivity|]. cbn [Images.out_file].
  destruct parts; [now destruct Hne|reflexivity].
Qed.

Lemma all_chars_join (f : ascii -> bool) (sep : string) (xs : list string) :
  Url.all_chars f sep = true -> Forall (fun x => Url.all_chars f x = true) xs ->
  Url.all_chars f (join sep xs) = true.
Proof.
  intros Hs. induction xs as [|x xs IH]; intros H; [reflexivity|].
  inversion H as [|? ? Hx Hxs]; subst. destruct xs as [|x' xs]; [exact Hx|].
  change (join sep (x :: x' :: xs)) with (x ++ sep ++ join sep (x' :: xs)).
  rewrite !all_chars_app, Hx, Hs. now apply IH.
Qed.

Lemma fold_right_suffix (sep y : string) (xs : list string) :
  exists K, fold_right (fun x acc => x ++ sep ++ acc) y xs = K ++ y.
Proof.
  induction xs as [|x xs [K HK]]; [now exists EmptyString|].
  exists (x ++ sep ++ K). simpl. rewrite HK, !app_assoc_str. reflexivity.
Qed.

Lemma path_comps_plain (x : string) :
  plain_segment x = true -> Utils.path_comps x = [x].
Proof.
  unfold plain_segment, Utils.path_comps. intros H.
  apply andb_true_iff in H as [H Hc]. apply andb_true_iff in H as [Ht Hd].
  rewrite split_nochar.
  - simpl. now rewrite Ht, Hd.
  - apply (all_chars_not_has seg_char); [exact Hc|reflexivity].
Qed.

Lemma flat_map_path_comps (xs : list string) :
  Forall (fun x => plain_segment x = true) xs -> flat_map Utils.path_comps xs = xs.
Proof.
  induction xs as [|x xs IH]; intros H; [reflexivity|].
  inversion H; subst. simpl. rewrite path_comps_plain by assumption. simpl. now rewrite IH.
Qed.

Lemma strip_keep (s s' r : string) (c0 c1 : ascii) :
  s = String c0 s' -> is_space c0 = false ->
  rev s = String c1 r -> is_space c1 = false -> strip s = s.
Proof.
  intros Hs H0 Hr H1. unfold strip, strip_by.
  assert (Hl : lstrip_by is_space s = s) by (subst s; simpl; now rewrite H0).
  rewrite Hl. exact (rstrip_keep is_space s r c1 Hr H1).
Qed.

Lemma seg_char_facts (c : ascii) :
  seg_char c = true ->
  path_char c = true /\ char_eqb c "/"%char = false /\ is_space c = false /\
  existsb (char_eqb c) invalid_chars = false.
Proof.
  unfold seg_char. intros H. repeat rewrite andb_true_iff in H.
  destruct H as [[[H1 H2] H3] H4]. apply negb_true_iff in H2, H3, H4. tauto.
Qed.

Lemma rev_nonempty (x : string) (c0 : ascii) (x' : string) :
  x = String c0 x' -> exists c1 r, rev x = String c1 r /\ has_char c1 x = true.
Proof.
  intros ->. destruct (rev (String c0 x')) as [|c1 r] eqn:E.
  - simpl in E. destruct (rev x'); discriminate.
  - exists c1, r. split; [reflexivity|]. rewrite <- has_char_rev, E. simpl.
    now rewrite char_eqb_refl.
Qed.

(** A plain segment followed by [.md] is left alone by [clean_filename]. *)
Lemma clean_filename_plain_md (leaf : string) :
  plain_segment leaf = true -> clean_filename (leaf ++ ".md") = leaf ++ ".md".
Proof.
  intros H. unfold plain_segment in H.
  apply andb_true_iff in H as [H Hc]. apply andb_true_iff in H as [Ht _].
  destruct leaf as [|c0 leaf']; [discriminate|].
  assert (Hinv : Forall (fun c => has_char c (String c0 leaf' ++ ".md") = false) invalid_chars).
  { apply Forall_forall. intros d Hd. rewrite has_char_app.
    apply orb_false_iff. split.
    - apply (all_chars_not_has seg_char); [exact Hc|].
      destruct (seg_char d) eqn:Ed; [|reflexivity].
      apply seg_char_facts in Ed as [_ [_ [_ Ed]]].
      exfalso. assert (existsb (char_eqb d) invalid_chars = true); [|congruence].
      apply existsb_exists. exists d. split; [exact Hd|apply char_eqb_refl].
    - revert d Hd. apply Forall_forall, md_invalid. }
  unfold clean_filename. cbv zeta.
  change (fold_left (fun f c => remove_char c f) invalid_chars (String c0 leaf' ++ ".md"))
    with (remove_all invalid_chars (EmptyString ++ (String c0 leaf' ++ ".md"))).
  rewrite remove_all_app by exact Hinv. change (remove_all invalid_chars EmptyString) with EmptyString.
  change (EmptyString ++ (String c0 leaf' ++ ".md")) with (String c0 leaf' ++ ".md").
  unfold collapse_ws. rewrite collapse_ws_nospace.
  - apply (strip_keep _ (leaf' ++ ".md") ("m." ++ rev (String c0 leaf')) c0 "d"%char);
      [reflexivity| |simpl; rewrite rev_app; reflexivity|reflexivity].
    simpl in Hc. apply andb_true_iff in Hc as [Hc0 _].
    now apply seg_char_facts in Hc0 as [_ [_ [Hs _]]].
  - rewrite all_chars_app. apply andb_true_iff. split; [|reflexivity].
    apply (all_chars_impl seg_char); [|exact Hc].
    intros d Hd. apply seg_char_facts in Hd as [_ [_ [Hs _]]]. now rewrite Hs.
Qed.

End OutputFacts.

Module OutputClaims.
Import StrFacts NormalizeFacts FilenameFacts MoreStrFacts OutputFacts.

(** X1: [create_output_path] names the file after the URL alone: the file
    name ends in [.md], holds none of the characters [clean_filename]
    removes, and is the same whatever the title, content, breadcrumbs,
    slugs and directory creation. *)
Theorem create_output_path_file_name (slugify : string -> string)
  (mkdir : list string -> bool) (url title content : string) (breadcrumbs : list string)
  (out : Images.OutputPath)
  (H : Utils.create_output_path slugify mkdir url title content breadcrumbs = Some out) :
  (exists stem, Images.out_file out = stem ++ ".md") /\
  Forall (fun c => has_char c (Images.out_file out) = false) invalid_chars /\
  (forall slugify' mkdir' title' content' breadcrumbs' out',
     Utils.create_output_path slugify' mkdir' url title' content' breadcrumbs' = Some out' ->
     Images.out_file out' = Images.out_file out).
Proof.
  destruct (create_output_path_out_file _ _ _ _ _ _ _ H) as [parts [Ep Ef]].
  split; [|split].
  - rewrite Ef. apply clean_filename_md.
  - apply Forall_forall. intros d Hd. rewrite Ef. now apply clean_filename_valid.
  - intros slugify' mkdir' title' content' breadcrumbs' out' H'.
    destruct (create_output_path_out_file _ _ _ _ _ _ _ H') as [parts' [Ep' Ef']].
    rewrite Ep in Ep'. injection Ep' as <-. now rewrite Ef, Ef'.
Qed.

Lemma create_output_path_file_name_witness :
  Utils.create_output_path (fun s => s) (fun _ => true)
    "https://support.haltech.com/portal/en/kb/articles/nissan-rb26" "RB26" "" ["a"; "b"]
  = Some {| Images.out_dirs := ["technical-library"; "engines"; "nissan"];
            Images.out_file := "nissan-rb26.md" |} /\
  exists stem, Images.out_file {| Images.out_dirs := ["technical-library"; "engines"; "nissan"];
                                  Images.out_file := "nissan-rb26.md" |} = stem ++ ".md".
Proof.
  assert (H : Utils.create_output_path (fun s => s) (fun _ => true)
    "https://support.haltech.com/portal/en/kb/articles/nissan-rb26" "RB26" "" ["a"; "b"]
    = Some {| Images.out_dirs := ["technical-library"; "engines"; "nissan"];
              Images.out_file := "nissan-rb26.md" |}) by (vm_compute; reflexivity).
  split; [exact H|].
  exact (proj1 (create_output_path_file_name _ _ _ _ _ _ _ H)).
Defined.

(** X2: with no breadcrumbs, a URL [s://h/portal/en/kb/haltech/d1/.../dn/leaf]
    followed by nothing or by a fragment, whose segments [d1 ... dn leaf]
    are plain, is stored under the directories [d1 ... dn], in the file
    [leaf.md]. *)
Theorem create_output_path_mirrors_url (slugify : string -> string)
  (mkdir : list string -> bool) (s h leaf title content : string) (dirs : list string)
  (Hs : In s ["http"; "https"]) (Hh : truthy h = true)
  (Hhc : Url.all_chars host_char h = true)
  (Hseg : Forall (fun x => plain_segment x = true) (dirs ++ [leaf]))
  (Hmk : mkdir dirs = true) (f : string) (Hf : f = EmptyString \/ prefix "#" f = true) :
  Utils.create_output_path slugify mkdir
    (s ++ "://" ++ h ++ "/portal/en/kb/haltech/" ++ join "/" (dirs ++ [leaf]) ++ f)
    title content []
  = Some {| Images.out_dirs := dirs; Images.out_file := leaf ++ ".md" |}.
Proof.
  set (J := join "/" (dirs ++ [leaf])).
  assert (Hall : Forall (fun x => Url.all_chars seg_char x = true) (dirs ++ [leaf])).
  { revert Hseg. apply Forall_impl. intros x Hx. unfold plain_segment in Hx.
    now apply andb_true_iff in Hx as [_ Hx]. }
  assert (HJ : Url.all_chars path_char ("/portal/en/kb/haltech/" ++ J) = true).
  { rewrite all_chars_app. apply andb_true_iff. split; [reflexivity|].
    apply all_chars_join; [reflexivity|]. revert Hall. apply Forall_impl.
    intros x. apply all_chars_impl. intros c Hc. now apply seg_char_facts in Hc as [Hc _]. }
  destruct (urlparse_plain s h ("/portal/en/kb/haltech/" ++ J) f Hs Hh Hhc HJ
              (or_intror (prefix_app _ _)) Hf) as [frag Hp].
  rewrite app_assoc_str in Hp.
  unfold Utils.create_output_path, Utils.extract_domain_path. rewrite Hp. cbn [Url.p_path].
  (* [path.strip('/')] *)
  assert (Hleaf : plain_segment leaf = true) by (apply Forall_app in Hseg as [_ Hl]; now inversion Hl).
  assert (Hstrip : strip_by (fun c => char_eqb c "/"%char) ("/portal/en/kb/haltech/" ++ J)
                   = "portal/en/kb/haltech/" ++ J).
  { unfold strip_by.
    change (lstrip_by (fun c => char_eqb c "/"%char) ("/portal/en/kb/haltech/" ++ J))
      with ("portal/en/kb/haltech/" ++ J).
    destruct (fold_right_suffix "/" leaf dirs) as [K HK].
    assert (EJ : J = K ++ leaf) by (unfold J; now rewrite join_snoc).
    unfold plain_segment in Hleaf. apply andb_true_iff in Hleaf as [Hl Hlc].
    apply andb_true_iff in Hl as [Ht _].
    destruct leaf as [|c0 leaf']; [discriminate|].
    destruct (rev_nonempty _ c0 leaf' eq_refl) as [c1 [r [Hr Hc1]]].
    apply (rstrip_keep _ _ (r ++ rev K ++ rev "portal/en/kb/haltech/") c1).
    - rewrite EJ, !rev_app, Hr. simpl. now rewrite !app_assoc_str.
    - pose proof (all_chars_has _ _ _ Hlc Hc1) as Hs1.
      now apply seg_char_facts in Hs1 as [_ [Hs1 _]]. }
  rewrite Hstrip. cbn [Utils.remove_first_prefix Utils.domain_prefixes].
  unfold startswith. rewrite prefix_app, drop_app_len.
  (* [path.split('/')] *)
  assert (Hsplit : split "/"%char J = (dirs ++ [leaf])%list).
  { apply split_join. revert Hall. apply Forall_impl. intros x Hx.
    apply (all_chars_not_has seg_char); [exact Hx|reflexivity]. }
  rewrite Hsplit. cbn [List.length Nat.eqb negb andb].
  assert (Hdirs : (if 1 <? List.length (dirs ++ [leaf])
                   then flat_map Utils.path_comps (removelast (dirs ++ [leaf])) else []) = dirs).
  { rewrite removelast_last. apply Forall_app in Hseg as [Hd _].
    destruct dirs as [|d dirs]; [reflexivity|].
    assert (Hlt : (1 <? List.length ((d :: dirs) ++ [leaf])) = true)
      by (apply Nat.ltb_lt; rewrite length_app; simpl; lia).
    rewrite Hlt. now rewrite flat_map_path_comps. }
  rewrite andb_false_r. cbn [andb]. rewrite Hdirs, Hmk.
  assert (Hfile : match (dirs ++ [leaf])%list with
                  | [] => "index.md"
                  | _ :: _ => last (dirs ++ [leaf]) EmptyString ++ ".md"
                  end = leaf ++ ".md").
  { rewrite last_last. destruct (dirs ++ [leaf])%list eqn:E; [|reflexivity].
    now apply app_eq_nil in E as [_ E]. }
  rewrite Hfile, clean_filename_plain_md by exact Hleaf. reflexivity.
Qed.

Lemma create_output_path_mirrors_url_witness :
  Utils.create_output_path (fun s => s) (fun _ => true)
    ("https" ++ "://" ++ "support.haltech.com" ++ "/portal/en/kb/haltech/"
     ++ join "/" (["ecu"; "elite-2500"] ++ ["pinout"]) ++ "#wiring")
    "Pinout" "" []
  = Some {| Images.out_dirs := ["ecu"; "elite-2500"]; Images.out_file := "pinout" ++ ".md" |}.
Proof.
  apply create_output_path_mirrors_url.
  - simpl; tauto.
  - reflexivity.
  - vm_compute; reflexivity.
  - repeat constructor.
  - reflexivity.
  - right. reflexivity.
Defined.

End OutputClaims.

Module SlugFacts.
Import StrFacts MoreStrFacts.

Lemma prefix_refl (s : string) : prefix s s = true.
Proof. apply prefix_spec. exists EmptyString. now rewrite app_nil_r_str. Qed.

Lemma rsplit_head_prefix (c : ascii) (s : string) :
  prefix (Utils.rsplit_head c s) s = true /\
  String.length (Utils.rsplit_head c s) <= String.length s.
Proof.
  unfold Utils.rsplit_head. destruct (rfind_char c s) as [j|].
  - split; [apply prefix_take|apply length_take].
  - split; [apply prefix_refl|lia].
Qed.

Lemma slice_to_prefix (n : Z) (s : string) :
  prefix (Utils.slice_to n s) s = true /\
  ((0 <= n)%Z -> (Z.of_nat (String.length (Utils.slice_to n s)) <= n)%Z).
Proof.
  unfold Utils.slice_to. destruct (0 <=? n)%Z eqn:E.
  - split; [apply prefix_take|]. intros Hn.
    destruct (length_take (Z.to_nat n) s) as [H _]. lia.
  - split; [apply prefix_take|]. intros Hn. apply Z.leb_nle in E. lia.
Qed.

End SlugFacts.

Module SlugClaims.
Import StrFacts MoreStrFacts SlugFacts.

(** X3: [create_slug] returns a prefix of the slug of its text; for a
    non-negative [max_length] (200 when it is [None]) the result is at most
    [max_length] characters long. *)
Theorem create_slug_prefix_bounded (slugify : string -> string) (text : string)
  (max_length : option Z) :
  prefix (Utils.create_slug slugify text max_length) (slugify text) = true /\
  ((0 <= match max_length with Some m => m | None => Utils.MAX_FILENAME_LENGTH end)%Z ->
   (Z.of_nat (String.length (Utils.create_slug slugify text max_length))
    <= match max_length with Some m => m | None => Utils.MAX_FILENAME_LENGTH end)%Z).
Proof.
  unfold Utils.create_slug.
  set (m := match max_length with Some m => m | None => Utils.MAX_FILENAME_LENGTH end).
  set (slug := slugify text).
  destruct (m <? Z.of_nat (String.length slug))%Z eqn:E.
  - destruct (rsplit_head_prefix Utils.SLUG_SEPARATOR (Utils.slice_to m slug)) as [H1 H2].
    destruct (slice_to_prefix m slug) as [H3 H4]. split.
    + exact (prefix_trans _ _ _ H1 H3).
    + intros Hm. specialize (H4 Hm). lia.
  - split; [apply prefix_refl|]. intros _. apply Z.ltb_ge in E. exact E.
Qed.

End SlugClaims.

Module HeaderFacts.
Import StrFacts MoreStrFacts.

Lemma split_block (c : ascii) (L : list string) :
  Forall (fun x => has_char c x = false) L -> has_char c "---" = false ->
  split c (join (String c EmptyString) (L ++ ["---" ++ String c EmptyString]))
  = (L ++ ["---"; EmptyString])%list.
Proof.
  intros HL H3. rewrite join_snoc, split_fold by exact HL. f_equal.
  change ("---" ++ String c EmptyString) with ("---" ++ String c EmptyString ++ EmptyString).
  now rewrite split_app_char.
Qed.

Lemma has_char_key (c : ascii) (key x : string) :
  has_char c key = false -> has_char c x = false -> has_char c (key ++ x) = false.
Proof. intros H1 H2. now rewrite has_char_app, H1, H2. Qed.



End HeaderFacts.

Module HeaderClaims.
Import StrFacts MoreStrFacts HeaderFacts.

(** X4: when no field holds a newline, the header [create_metadata_header]
    builds is, line by line, [---], the title, URL and date lines, the line
    [category: c] when the category [c] is non-empty, then the line
    [subcategory: c] when the subcategory [c] is non-empty, [---] and an
    empty line. *)
Theorem create_metadata_header_lines (title url date : string)
  (category subcategory : option string)
  (Ht : has_char (ascii_of_nat 10) title = false)
  (Hu : has_char (ascii_of_nat 10) url = false)
  (Hd : has_char (ascii_of_nat 10) date = false)
  (Hc : forall c, category = Some c -> has_char (ascii_of_nat 10) c = false)
  (Hs : forall c, subcategory = Some c -> has_char (ascii_of_nat 10) c = false) :
  split (ascii_of_nat 10) (Utils.create_metadata_header title url date category subcategory)
  = (["---"; "title: " ++ title; "url: " ++ url; "date_scraped: " ++ date]%string
     ++ match category with
        | Some c => if truthy c then [("category: " ++ c)%string] else []
        | None => []
        end
     ++ match subcategory with
        | Some c => if truthy c then [("subcategory: " ++ c)%string] else []
        | None => []
        end
     ++ ["---"; EmptyString])%list.
Proof.
  set (oc := match category with Some x => if truthy x then ["category: " ++ x] else []
                                | None => [] end).
  set (os := match subcategory with Some x => if truthy x then ["subcategory: " ++ x] else []
                                   | None => [] end).
  assert (Hoc : Forall (fun x => has_char (ascii_of_nat 10) x = false) oc).
  { unfold oc. destruct category as [x|]; [|constructor].
    destruct (truthy x); [|constructor].
    constructor; [|constructor]. rewrite has_char_app, (Hc x eq_refl). reflexivity. }
  assert (Hos : Forall (fun x => has_char (ascii_of_nat 10) x = false) os).
  { unfold os. destruct subcategory as [x|]; [|constructor].
    destruct (truthy x); [|constructor].
    constructor; [|constructor]. rewrite has_char_app, (Hs x eq_refl). reflexivity. }
  unfold Utils.create_metadata_header. cbv beta zeta.
  change (match category with Some x => if truthy x then ["category" ++ ": " ++ x] else []
                             | None => [] end) with oc.
  change (match subcategory with Some x => if truthy x then ["subcategory" ++ ": " ++ x] else []
                                | None => [] end) with os.
  rewrite !List.app_assoc. rewrite <- (List.app_assoc _ oc os). unfold Images.nl.
  rewrite split_block; [now rewrite <- !List.app_assoc| |reflexivity].
  apply Forall_app. split; [|now apply Forall_app].
  repeat constructor; apply has_char_key; (reflexivity || assumption).
Qed.

Lemma create_metadata_header_lines_witness :
  split (ascii_of_nat 10)
    (Utils.create_metadata_header "RB26 Wiring Guide" "https://support.haltech.com/x"
       "2025-01-31" (Some "Haltech") (Some "ECUs"))
  = ["---"; "title: RB26 Wiring Guide"; "url: https://support.haltech.com/x";
     "date_scraped: 2025-01-31"; "category: Haltech"; "subcategory: ECUs"; "---"; EmptyString].
Proof.
  apply (create_metadata_header_lines "RB26 Wiring Guide" "https://support.haltech.com/x"
           "2025-01-31" (Some "Haltech") (Some "ECUs")); try reflexivity.
  - intros c Hc. injection Hc as <-. reflexivity.
  - intros c Hc. injection Hc as <-. reflexivity.
Defined.



(** A title holding a carriage return is cut there when read back. *)
Lemma index_entry_title_cr :
  Index.index_entry "d" "a.md"
    (Index.saved_document (Utils.create_metadata_header
       (String "A"%char (String (ascii_of_nat 13) "B")) "u" "2025-01-31" None None) "")
  = Some ("- [" ++ "A" ++ "](" ++ "d" ++ "/" ++ "a.md" ++ ")").
Proof. vm_compute. reflexivity. Qed.

End HeaderClaims.

Module CrawlerFacts.
Import Crawler.

Lemma existsb_false_iff {A : Type} (f : A -> bool) (l : list A) :
  existsb f l = false <-> forall x, In x l -> f x = false.
Proof.
  split.
  - intros H x Hx. destruct (f x) eqn:E; [|reflexivity].
    assert (existsb f l = true) by (apply existsb_exists; eauto). congruence.
  - intros H. destruct (existsb f l) eqn:E; [|reflexivity].
    apply existsb_exists in E as [x [Hx Hf]]. now rewrite H in Hf.
Qed.

Lemma is_article_url_empty (url : string) :
  is_article_url url EmptyString
  = existsb (fun pattern => contains pattern (lower url)) article_patterns.
Proof.
  unfold is_article_url. destruct (existsb _ _); [reflexivity|].
  destruct (_ || _); reflexivity.
Qed.

Lemma set_add_in (x y : string) (xs : list string) :
  In x (Scheduler.set_add y xs) -> x = y \/ In x xs.
Proof.
  unfold Scheduler.set_add. destruct (mem y xs); [now right|].
  intros H. apply in_app_or in H as [H|[H|[]]]; [now right|now left].
Qed.

(** The article URLs of a crawler state are in scope and look like articles. *)
Definition articles_ok (st : CState) : Prop :=
  forall a, In a (article_urls st) ->
    is_valid_url a = Some true /\ exists link_text, is_article_url a link_text = true.

Lemma links_loop_ok (discover : string -> nat -> CState -> CState * bool)
  (normalized_url : string) (depth : nat) (links : list (string * string)) (st : CState) :
  (forall u d st', articles_ok st' -> articles_ok (fst (discover u d st'))) ->
  articles_ok st -> articles_ok (fst (links_loop discover normalized_url depth links st)).
Proof.
  intros Hrec. revert st; induction links as [|[href link_text] rest IH]; intros st Hst;
    [exact Hst|].
  cbn [links_loop].
  destruct (normalize_url href (Some normalized_url)) as [a|]; [|exact Hst].
  destruct (is_valid_url a) as [[|]|] eqn:Ev; [|now apply IH|exact Hst].
  destruct (is_article_url a link_text) eqn:Ea.
  - apply IH. intros x Hx. apply set_add_in in Hx as [->|Hx]; [|now apply Hst].
    split; [exact Ev|now exists link_text].
  - destruct (is_category_url a); [|now apply IH].
    destruct (mem a (visited_urls st)); [now apply IH|].
    specialize (Hrec a (S depth) st Hst).
    destruct (discover a (S depth) st) as [st' [|]]; [exact Hrec|now apply IH].
Qed.

Lemma discover_page_ok (page_links : string -> option (list (string * string)))
  (fuel : nat) : forall (url : string) (depth : nat) (st : CState),
  articles_ok st -> articles_ok (fst (discover_page page_links fuel url depth st)).
Proof.
  induction fuel as [|fuel IH]; intros url depth st Hst; cbn [discover_page];
    (destruct (max_depth <? depth); [exact Hst|]);
    (destruct (mem url (visited_urls st)); [exact Hst|]);
    (destruct (normalize_url url None) as [n|]; [|exact Hst]);
    (destruct (is_valid_url n) as [[|]|]; [|exact Hst|exact Hst]).
  - exact Hst.
  - destruct (page_links n) as [links|]; [|exact Hst]. cbn [fst].
    apply links_loop_ok; [exact IH|exact Hst].
Qed.

Lemma discover_page_no_raise (page_links : string -> option (list (string * string)))
  (fuel : nat) (url n : string) (depth : nat) (st : CState) (b : bool) :
  normalize_url url None = Some n -> is_valid_url n = Some b ->
  snd (discover_page page_links fuel url depth st) = false.
Proof.
  intros Hn Hv. destruct fuel; cbn [discover_page];
    (destruct (max_depth <? depth); [reflexivity|]);
    (destruct (mem url (visited_urls st)); [reflexivity|]);
    rewrite Hn, Hv; destruct b; try reflexivity.
  destruct (page_links n); reflexivity.
Qed.

Lemma set_add_mono (x y : string) (xs : list string) :
  In x xs -> In x (Scheduler.set_add y xs).
Proof.
  unfold Scheduler.set_add. destruct (mem y xs); [easy|]. intros H. apply in_or_app. now left.
Qed.

(** An invariant of the crawler state kept by recording articles and by the
    recursive call is kept by the link loop. *)
Lemma links_loop_inv (P : CState -> Prop) (discover : string -> nat -> CState -> CState * bool)
  (normalized_url : string) (depth : nat) (links : list (string * string)) (st : CState) :
  (forall a st', P st' -> P (add_article a st')) ->
  (forall u d st', P st' -> P (fst (discover u d st'))) ->
  P st -> P (fst (links_loop discover normalized_url depth links st)).
Proof.
  intros Hart Hrec. revert st; induction links as [|[href link_text] rest IH]; intros st Hst;
    [exact Hst|].
  cbn [links_loop].
  destruct (normalize_url href (Some normalized_url)) as [a|]; [|exact Hst].
  destruct (is_valid_url a) as [[|]|]; [|now apply IH|exact Hst].
  destruct (is_article_url a link_text); [now apply IH, Hart|].
  destruct (is_category_url a); [|now apply IH].
  destruct (mem a (visited_urls st)); [now apply IH|].
  specialize (Hrec a (S depth) st Hst).
  destruct (discover a (S depth) st) as [st' [|]]; [exact Hrec|now apply IH].
Qed.

(** An invariant kept by recording articles and by marking a valid URL as
    visited is kept by [_discover_page]. *)
Lemma discover_page_inv (P : CState -> Prop)
  (page_links : string -> option (list (string * string))) (fuel : nat) :
  (forall a st, P st -> P (add_article a st)) ->
  (forall n st, P st -> is_valid_url n = Some true -> P (add_visited n st)) ->
  forall (url : string) (depth : nat) (st : CState),
  P st -> P (fst (discover_page page_links fuel url depth st)).
Proof.
  intros Hart Hvis. induction fuel as [|fuel IH]; intros url depth st Hst; cbn [discover_page];
    (destruct (max_depth <? depth); [exact Hst|]);
    (destruct (mem url (visited_urls st)); [exact Hst|]);
    (destruct (normalize_url url None) as [n|]; [|exact Hst]);
    (destruct (is_valid_url n) as [[|]|] eqn:Ev; [|exact Hst|exact Hst]).
  - now apply Hvis.
  - destruct (page_links n) as [links|]; cbn [fst]; [|now apply Hvis].
    apply links_loop_inv; [exact Hart|exact IH|now apply Hvis].
Qed.

Lemma kb_url_normal : normalize_url KB_URL None = Some KB_URL.
Proof. vm_compute. reflexivity. Qed.

Lemma kb_url_valid : is_valid_url KB_URL = Some true.
Proof. vm_compute. reflexivity. Qed.

End CrawlerFacts.

Module CrawlerClaims.
Import Crawler CrawlerFacts.

(** X6: the crawl [_discover_page(config.KB_URL)] started by
    [discover_site_structure] visits the knowledge-base root, and every URL
    it records in [visited_urls] is accepted by [is_valid_url], whatever
    pages and links it meets. *)
Theorem discover_visits_valid (page_links : string -> option (list (string * string))) :
  let st := fst (discover_page page_links (S max_depth) KB_URL 0 init) in
  In KB_URL (visited_urls st) /\
  forall v, In v (visited_urls st) -> is_valid_url v = Some true.
Proof.
  cbv zeta. split.
  - cbn [discover_page]. rewrite kb_url_normal, kb_url_valid.
    change (max_depth <? 0) with false. change (mem KB_URL (visited_urls init)) with false.
    cbv iota.
    assert (H0 : In KB_URL (visited_urls (add_visited KB_URL init))) by (left; reflexivity).
    destruct (page_links KB_URL) as [links|]; cbn [fst]; [|exact H0].
    apply (links_loop_inv (fun st => In KB_URL (visited_urls st))); [easy| |exact H0].
    intros u d st' H. apply (discover_page_inv (fun st => In KB_URL (visited_urls st)));
      [easy| |exact H]. intros n st Hst _. now apply set_add_mono.
  - apply (discover_page_inv (fun st => forall v, In v (visited_urls st) -> is_valid_url v = Some true)).
    + easy.
    + intros n st Hst Hn v Hv. apply set_add_in in Hv as [->|Hv]; [exact Hn|now apply Hst].
    + intros v [].
Qed.

(** X7: a valid link whose lowercase URL holds [/kb/] is never dropped by
    [_discover_page]: it is an article or a category page; when the URL
    holds no article pattern it is an article exactly when its link text is
    longer than 10 characters. *)
Theorem kb_link_classified (url link_text : string)
  (Hkb : contains "/kb/" (lower url) = true) :
  (is_article_url url link_text || is_category_url url) = true /\
  ((forall p, In p article_patterns -> contains p (lower url) = false) ->
   is_article_url url link_text = (10 <? String.length link_text)).
Proof.
  split.
  - destruct (is_article_url url link_text) eqn:Ea; [reflexivity|]. cbn [orb].
    unfold is_category_url. rewrite is_article_url_empty, Hkb.
    unfold is_article_url in Ea.
    destruct (existsb (fun pattern => contains pattern (lower url)) article_patterns);
      [discriminate|].
    destruct (existsb _ category_patterns); reflexivity.
  - intros Ha. apply existsb_false_iff in Ha. unfold is_article_url. rewrite Ha, Hkb, orb_true_r.
    destruct link_text as [|c t]; reflexivity.
Qed.

Lemma kb_link_classified_witness :
  contains "/kb/" (lower "https://support.haltech.com/portal/en/kb/haltech/engines") = true /\
  (is_article_url "https://support.haltech.com/portal/en/kb/haltech/engines" "Engines"
   || is_category_url "https://support.haltech.com/portal/en/kb/haltech/engines") = true.
Proof.
  assert (H : contains "/kb/" (lower "https://support.haltech.com/portal/en/kb/haltech/engines")
              = true) by (vm_compute; reflexivity).
  split; [exact H|]. exact (proj1 (kb_link_classified _ "Engines" H)).
Defined.

(** X8: [discover_site_structure] returns normally exactly when
    [initialize_browser()], [_save_site_map()] and [close_browser()] do,
    whatever pages and links the crawl meets ([_discover_page] lets no
    exception escape); every article URL it returns is in scope
    ([is_valid_url]) and was classified as an article. *)
Theorem discover_site_structure_articles
  (page_links : string -> option (list (string * string)))
  (initialize_browser_ok save_site_map_ok close_browser_ok : bool) :
  (discover_site_structure page_links initialize_browser_ok save_site_map_ok close_browser_ok
     = None <->
   initialize_browser_ok && save_site_map_ok && close_browser_ok = false) /\
  (forall articles,
     discover_site_structure page_links initialize_browser_ok save_site_map_ok close_browser_ok
       = Some articles ->
     forall a, In a articles ->
       is_valid_url a = Some true /\ exists link_text, is_article_url a link_text = true).
Proof.
  unfold discover_site_structure.
  pose proof (discover_page_no_raise page_links (S max_depth) KB_URL KB_URL 0 init true
                kb_url_normal kb_url_valid) as Hr.
  pose proof (discover_page_ok page_links (S max_depth) KB_URL 0 init) as Hok.
  destruct (discover_page page_links (S max_depth) KB_URL 0 init) as [st raised].
  cbn [snd fst] in Hr, Hok. subst raised.
  destruct initialize_browser_ok, save_site_map_ok, close_browser_ok; cbn [negb andb];
    (split; [split; intros H; (reflexivity || discriminate H) | intros articles H; try discriminate H]).
  injection H as <-. intros a Ha. exact (Hok (fun x Hx => match Hx with end) a Ha).
Qed.

Lemma discover_site_structure_articles_witness :
  discover_site_structure
    (fun u => if String.eqb u KB_URL
              then Some [("/portal/en/kb/articles/rb26-wiring", "RB26 Wiring Guide")]
              else None) true true true
  = Some ["https://support.haltech.com/portal/en/kb/articles/rb26-wiring"] /\
  is_valid_url "https://support.haltech.com/portal/en/kb/articles/rb26-wiring" = Some true /\
  exists link_text,
    is_article_url "https://support.haltech.com/portal/en/kb/articles/rb26-wiring" link_text = true.
Proof.
  assert (H : discover_site_structure
    (fun u => if String.eqb u KB_URL
              then Some [("/portal/en/kb/articles/rb26-wiring", "RB26 Wiring Guide")]
              else None) true true true
    = Some ["https://support.haltech.com/portal/en/kb/articles/rb26-wiring"])
    by (vm_compute; reflexivity).
  split; [exact H|].
  exact (proj2 (discover_site_structure_articles _ true true true) _ H _ (or_introl eq_refl)).
Defined.

End CrawlerClaims.

Module CategoryMore.
Import StrFacts MoreStrFacts.

(** X9: the breadcrumbs [categorize_article] returns are always those its
    category path spells: ["Knowledge Base"], ["Haltech"] and the title-cased
    components of the path, in the table branch and in every fallback. *)
Theorem categorize_breadcrumbs_of_path (url title content : string) :
  snd (Category.categorize_article url title content)
  = Category.breadcrumbs_of (fst (Category.categorize_article url title content)).
Proof.
  unfold Category.categorize_article. cbv zeta.
  destruct (fold_left _ _ None) as [c|]; [reflexivity|].
  destruct (contains "/kb/articles/" url); [|reflexivity].
  destruct (Category.search_article_slug url) as [slug|]; [|reflexivity].
  repeat (destruct (Category.any_in _ slug); [reflexivity|]). reflexivity.
Qed.

(** X10: [categorize_article] reads only the first 500 characters of the
    content: what follows them never changes the category. *)
Theorem categorize_content_window (url title c d : string)
  (Hc : 500 <= String.length c) :
  Category.categorize_article url title (c ++ d) = Category.categorize_article url title c.
Proof.
  assert (Ht : forall s, 500 <= String.length s -> truthy s = true)
    by (intros s Hs; destruct s; [simpl in Hs; lia|reflexivity]).
  assert (E : take 500 (if truthy (c ++ d) then lower (c ++ d) else EmptyString)
              = take 500 (if truthy c then lower c else EmptyString)).
  { rewrite (Ht c Hc), (Ht (c ++ d)) by (rewrite length_app_str; lia).
    rewrite lower_app, take_app_ge; [reflexivity|now rewrite lower_length]. }
  unfold Category.categorize_article. cbv zeta. now rewrite E.
Qed.

Lemma categorize_content_window_witness :
  500 <= String.length (String.concat "" (repeat "engine map" 50)) /\
  Category.categorize_article "https://support.haltech.com/portal/en/kb/articles/x" "X"
    (String.concat "" (repeat "engine map" 50) ++ "toyota")
  = Category.categorize_article "https://support.haltech.com/portal/en/kb/articles/x" "X"
      (String.concat "" (repeat "engine map" 50)).
Proof.
  assert (H : 500 <= String.length (String.concat "" (repeat "engine map" 50)))
    by (apply Nat.leb_le; vm_compute; reflexivity).
  split; [exact H|]. exact (categorize_content_window _ _ _ "toyota" H).
Defined.

End CategoryMore.

Module ImagesMore.
Import StrFacts Images.

Lemma process_loop_bad_src (fetch : string -> download) (relative_to_images article_url : string)
  (img : ImageRef) :
  truthy (src img) = true -> normalize_url (src img) (Some article_url) = None ->
  forall images i markdown_content, In img images ->
  process_loop fetch relative_to_images article_url i images markdown_content = None.
Proof.
  intros Hs Hn images. induction images as [|img' rest IH]; intros i md Hin; [destruct Hin|].
  cbn [process_loop]. destruct Hin as [<-|Hin].
  - rewrite Hs, Hn. reflexivity.
  - destruct (negb (truthy (src img'))); [now apply IH|].
    destruct (normalize_url (src img') (Some article_url)); [now apply IH|reflexivity].
Qed.

Lemma process_loop_no_download (fetch : string -> download) (relative_to_images article_url : string)
  (Hf : forall u, fetch u <> Fetched 200) :
  forall images i markdown_content r,
  process_loop fetch relative_to_images article_url i images markdown_content = Some r ->
  r = markdown_content.
Proof.
  intros images. induction images as [|img rest IH]; intros i md r H.
  - injection H as <-. reflexivity.
  - cbn [process_loop] in H. destruct (negb (truthy (src img))); [exact (IH _ _ _ H)|].
    destruct (normalize_url (src img) (Some article_url)) as [a|]; [|discriminate].
    match type of H with process_loop _ _ _ _ rest ?m = _ => assert (Em : m = md) end.
    { destruct (fetch a) as [z|] eqn:Ef; [|reflexivity].
      destruct (Z.eq_dec z 200) as [->|Hz]; [exfalso; exact (Hf a Ef)|].
      destruct z as [|p|p]; try reflexivity;
        repeat (destruct p as [p|p|]; try reflexivity).
      exfalso. apply Hz. reflexivity. }
    rewrite Em in H. exact (IH _ _ _ H).
Qed.

Lemma ensure_loop_appends (listing relative_to_images : string) :
  forall images i markdown_content r,
  ensure_loop listing relative_to_images i images markdown_content = Some r ->
  exists suffix, r = markdown_content ++ suffix.
Proof.
  intros images. induction images as [|img rest IH]; intros i md r H.
  - injection H as <-. exists EmptyString. now rewrite app_nil_r_str.
  - cbn [ensure_loop] in H. destruct (negb (truthy (src img))); [exact (IH _ _ _ H)|].
    destruct (normalize_url (src img) (Some EmptyString)) as [a|]; [|discriminate].
    destruct (get_image_filename _ _) as [filename|]; [|discriminate].
    match type of H with ensure_loop _ _ _ rest ?m = _ =>
      assert (Em : exists t, m = md ++ t) end.
    { destruct (_ && _); [|exists EmptyString; now rewrite app_nil_r_str].
      destruct (negb (endswith (strip md) (nl ++ nl))); destruct (truthy (alt img));
        eexists; rewrite ?app_assoc_str; reflexivity. }
    destruct Em as [t Em]. rewrite Em in H. destruct (IH _ _ _ H) as [s Hs].
    exists (t ++ s). now rewrite Hs, app_assoc_str.
Qed.

End ImagesMore.

Module ImagesMoreClaims.
Import StrFacts Images ImagesMore.

(** X11: one image whose non-empty [src] [normalize_url] cannot parse makes
    [_process_images] raise, wherever it stands in the list: the [try] only
    covers the download. *)
Theorem process_images_bad_src (fetch : string -> download) (listing markdown_content : string)
  (images : list ImageRef) (article_url : string) (output_path : OutputPath) (img : ImageRef)
  (Hin : In img images) (Hs : truthy (src img) = true)
  (Hn : normalize_url (src img) (Some article_url) = None) :
  process_images fetch listing markdown_content images article_url output_path = None.
Proof.
  unfold process_images. now rewrite (process_loop_bad_src fetch _ article_url img Hs Hn).
Qed.

Lemma process_images_bad_src_witness :
  normalize_url "http://[x" (Some "https://support.haltech.com/a") = None /\
  process_images (fun _ => Fetched 200) "" "Intro"
    [{| src := "/img/a.png"; alt := "" |}; {| src := "http://[x"; alt := "" |}]
    "https://support.haltech.com/a" {| out_dirs := []; out_file := "a.md" |} = None.
Proof.
  assert (H : normalize_url "http://[x" (Some "https://support.haltech.com/a") = None)
    by (vm_compute; reflexivity).
  split; [exact H|].
  apply (process_images_bad_src _ _ _ _ _ _ {| src := "http://[x"; alt := "" |});
    [simpl; tauto|reflexivity|exact H].
Defined.

(** X12: when no image download answers with status 200, [_process_images]
    never rewrites the Markdown: it returns it with at most some image
    references appended. *)
Theorem process_images_no_download_appends (fetch : string -> download)
  (listing markdown_content : string) (images : list ImageRef) (article_url : string)
  (output_path : OutputPath) (r : string)
  (Hf : forall u, fetch u <> Fetched 200)
  (H : process_images fetch listing markdown_content images article_url output_path = Some r) :
  exists suffix, r = markdown_content ++ suffix.
Proof.
  unfold process_images in H.
  destruct (process_loop fetch _ article_url 0 images markdown_content) as [m|] eqn:E;
    [|discriminate].
  apply process_loop_no_download in E; [subst m|exact Hf].
  exact (ensure_loop_appends _ _ _ _ _ _ H).
Qed.

Lemma process_images_no_download_appends_witness :
  (forall u, (fun _ : string => Fetched 404) u <> Fetched 200) /\
  process_images (fun _ => Fetched 404) "" "Intro" [{| src := "/img/a.png"; alt := "" |}]
    "https://support.haltech.com/a" {| out_dirs := []; out_file := "a.md" |} = Some "Intro" /\
  exists suffix, "Intro" = "Intro" ++ suffix.
Proof.
  assert (Hf : forall u, (fun _ : string => Fetched 404) u <> Fetched 200)
    by (intros u E; discriminate E).
  assert (H : process_images (fun _ => Fetched 404) "" "Intro" [{| src := "/img/a.png"; alt := "" |}]
                "https://support.haltech.com/a" {| out_dirs := []; out_file := "a.md" |}
              = Some "Intro") by (vm_compute; reflexivity).
  split; [exact Hf|]. split; [exact H|].
  exact (process_images_no_download_appends _ _ _ _ _ _ _ Hf H).
Defined.

(** X13: [_ensure_image_references] only appends to the Markdown: the text
    it returns starts with the text it was given. *)
Theorem ensure_image_references_appends (listing markdown_content : string)
  (images : list ImageRef) (relative_to_images r : string)
  (H : ensure_image_references listing markdown_content images relative_to_images = Some r) :
  exists suffix, r = markdown_content ++ suffix.
Proof. exact (ensure_loop_appends _ _ _ _ _ _ H). Qed.

Lemma ensure_image_references_appends_witness :
  ensure_image_references "<generator object Path.iterdir at 0x7f>" "Intro"
    [{| src := "https://support.haltech.com/img/a.png"; alt := "A" |}] "../images"
  = Some "Intro" /\ exists suffix, "Intro" = "Intro" ++ suffix.
Proof.
  assert (H : ensure_image_references "<generator object Path.iterdir at 0x7f>" "Intro"
    [{| src := "https://support.haltech.com/img/a.png"; alt := "A" |}] "../images"
    = Some "Intro") by (vm_compute; reflexivity).
  split; [exact H|]. exact (ensure_image_references_appends _ _ _ _ _ H).
Defined.

End ImagesMoreClaims.

Module SchedulerMore.
Import Scheduler SchedulerFacts.

(** Whether [u] is in [scraped_urls] and in [failed_urls]. *)
Definition marks (u : string) (st : State) : bool * bool :=
  (mem u (scraped_urls st), mem u (failed_urls st)).

Lemma scrape_go_other_marks (outcome : string -> nat -> attempt_outcome) (u v : string) :
  v <> u -> forall fuel rc st, marks u (scrape_go outcome fuel v rc st) = marks u st.
Proof.
  intros Hvu. apply not_eq_sym, String.eqb_neq in Hvu.
  assert (Hs : forall st, marks u (add_scraped v st) = marks u st)
    by (intros st; unfold marks, add_scraped, add_failed, log_attempt; cbn [scraped_urls failed_urls fst snd]; now rewrite mem_set_add, Hvu, orb_false_r).
  assert (Hf : forall st, marks u (add_failed v st) = marks u st)
    by (intros st; unfold marks, add_scraped, add_failed, log_attempt; cbn [scraped_urls failed_urls fst snd]; now rewrite mem_set_add, Hvu, orb_false_r).
  assert (Hl : forall rc st, marks u (log_attempt v rc st) = marks u st) by reflexivity.
  induction fuel as [|fuel IH]; intros rc st; cbn [scrape_go];
    (destruct (mem v (scraped_urls st)); [reflexivity|]);
    (destruct (outcome v rc); cbv beta iota;
     [|now rewrite Hs, Hl|];
     (destruct (rc <? Config.MAX_RETRIES);
      [try rewrite IH; rewrite ?Hs; apply Hl | rewrite Hf, ?Hs; apply Hl])).
Qed.

Lemma fold_other_marks (outcome : string -> nat -> attempt_outcome) (u : string) :
  forall A st, ~ In u A ->
  marks u (fold_left (fun st url => scrape_article outcome url 0 st) A st) = marks u st.
Proof.
  intros A. induction A as [|v A IH]; intros st Hn; [reflexivity|].
  simpl. rewrite IH by (intros H; apply Hn; now right).
  apply scrape_go_other_marks. intros ->. apply Hn. now left.
Qed.

Lemma scrape_go_self_marks (outcome : string -> nat -> attempt_outcome) (u : string)
  (Hno : forall rc, outcome u rc <> Saved_then_close_raised) :
  forall fuel rc st, rc + fuel = Config.MAX_RETRIES -> marks u st = (false, false) ->
  xorb (fst (marks u (scrape_go outcome fuel u rc st)))
       (snd (marks u (scrape_go outcome fuel u rc st))) = true.
Proof.
  induction fuel as [|fuel IH]; intros rc st Hf Hm; unfold marks in Hm;
    injection Hm as Hs Hfl; cbn [scrape_go]; rewrite Hs;
    (destruct (outcome u rc) eqn:Eo; cbv beta iota;
     [| unfold marks, add_scraped, add_failed, log_attempt; cbn [scraped_urls failed_urls fst snd]; now rewrite mem_set_add, String.eqb_refl, orb_true_r, Hfl
      | exfalso; exact (Hno rc Eo)]).
  - destruct (Nat.ltb_spec rc Config.MAX_RETRIES); [unfold Config.MAX_RETRIES in *; lia|].
    unfold marks, add_scraped, add_failed, log_attempt; cbn [scraped_urls failed_urls fst snd]. now rewrite mem_set_add, String.eqb_refl, orb_true_r, Hs.
  - destruct (Nat.ltb_spec rc Config.MAX_RETRIES).
    + apply IH; [lia|]. unfold marks, add_scraped, add_failed, log_attempt; cbn [scraped_urls failed_urls fst snd]. now rewrite Hs, Hfl.
    + unfold marks, add_scraped, add_failed, log_attempt; cbn [scraped_urls failed_urls fst snd]. now rewrite mem_set_add, String.eqb_refl, orb_true_r, Hs.
Qed.

End SchedulerMore.

Module SchedulerMoreClaims.
Import Scheduler SchedulerMore.

(** X14: [_scrape_articles] only records URLs it was given: a URL found in
    [scraped_urls] or in [failed_urls] after the run is one of the article
    URLs. *)
Theorem scrape_articles_records_only_inputs (outcome : string -> nat -> attempt_outcome)
  (A : list string) (u : string)
  (H : (mem u (scraped_urls (scrape_articles outcome A))
        || mem u (failed_urls (scrape_articles outcome A))) = true) :
  In u A.
Proof.
  destruct (in_dec String.string_dec u A) as [Hin|Hn]; [exact Hin|].
  exfalso. pose proof (fold_other_marks outcome u A init Hn) as E.
  unfold scrape_articles, marks in *. injection E as E1 E2.
  rewrite E1, E2 in H. discriminate.
Qed.

Lemma scrape_articles_records_only_inputs_witness :
  (mem "https://support.haltech.com/portal/en/kb/articles/a"
     (scraped_urls (scrape_articles (fun _ _ => Saved)
                      ["https://support.haltech.com/portal/en/kb/articles/a"]))
   || mem "https://support.haltech.com/portal/en/kb/articles/a"
        (failed_urls (scrape_articles (fun _ _ => Saved)
                        ["https://support.haltech.com/portal/en/kb/articles/a"]))) = true /\
  In "https://support.haltech.com/portal/en/kb/articles/a"
    ["https://support.haltech.com/portal/en/kb/articles/a"].
Proof.
  assert (H : (mem "https://support.haltech.com/portal/en/kb/articles/a"
     (scraped_urls (scrape_articles (fun _ _ => Saved)
                      ["https://support.haltech.com/portal/en/kb/articles/a"]))
   || mem "https://support.haltech.com/portal/en/kb/articles/a"
        (failed_urls (scrape_articles (fun _ _ => Saved)
                        ["https://support.haltech.com/portal/en/kb/articles/a"]))) = true)
    by (vm_compute; reflexivity).
  split; [exact H|]. exact (scrape_articles_records_only_inputs _ _ _ H).
Defined.

(** X15: when no [finally] of [_scrape_article] raises after a save, the run
    over distinct article URLs partitions them: every article URL ends in
    exactly one of [scraped_urls] and [failed_urls], and a URL that is not
    an article URL is in neither. *)
Theorem scrape_articles_partition_if_close_ok (outcome : string -> nat -> attempt_outcome)
  (A : list string) (u : string)
  (Hno : forall v rc, outcome v rc <> Saved_then_close_raised) (Hnd : NoDup A) :
  (In u A -> xorb (mem u (scraped_urls (scrape_articles outcome A)))
                  (mem u (failed_urls (scrape_articles outcome A))) = true) /\
  (~ In u A -> mem u (scraped_urls (scrape_articles outcome A)) = false /\
               mem u (failed_urls (scrape_articles outcome A)) = false).
Proof.
  unfold scrape_articles. split.
  - intros Hin.
    apply in_split in Hin as [A1 [A2 ->]].
    apply NoDup_remove_2 in Hnd. rewrite in_app_iff in Hnd.
    rewrite fold_left_app. cbn [fold_left].
    pose proof (fold_other_marks outcome u A1 init ltac:(tauto)) as E1.
    set (st1 := fold_left (fun st url => scrape_article outcome url 0 st) A1 init) in *.
    pose proof (fold_other_marks outcome u A2 (scrape_article outcome u 0 st1) ltac:(tauto)) as E2.
    pose proof (scrape_go_self_marks outcome u (Hno u) (Config.MAX_RETRIES - 0) 0 st1
                  eq_refl E1) as X.
    assert (G : forall st, xorb (mem u (scraped_urls st)) (mem u (failed_urls st))
                           = xorb (fst (marks u st)) (snd (marks u st))) by reflexivity.
    rewrite G, E2. exact X.
  - intros Hn.
    pose proof (fold_other_marks outcome u A init Hn) as E.
    unfold marks in E. injection E as E1 E2. rewrite E1, E2. split; reflexivity.
Qed.

Lemma scrape_articles_partition_if_close_ok_witness :
  (forall v rc, (fun (_ : string) (_ : nat) => Raised_before_save) v rc <> Saved_then_close_raised) /\
  NoDup ["https://support.haltech.com/portal/en/kb/articles/a"] /\
  (mem "https://support.haltech.com/portal/en/kb/articles/a"
     (scraped_urls (scrape_articles (fun _ _ => Raised_before_save)
                      ["https://support.haltech.com/portal/en/kb/articles/a"])) = false /\
   mem "https://support.haltech.com/portal/en/kb/articles/a"
     (failed_urls (scrape_articles (fun _ _ => Raised_before_save)
                     ["https://support.haltech.com/portal/en/kb/articles/a"])) = true) /\
  xorb (mem "https://support.haltech.com/portal/en/kb/articles/a"
          (scraped_urls (scrape_articles (fun _ _ => Raised_before_save)
                           ["https://support.haltech.com/portal/en/kb/articles/a"])))
       (mem "https://support.haltech.com/portal/en/kb/articles/a"
          (failed_urls (scrape_articles (fun _ _ => Raised_before_save)
                          ["https://support.haltech.com/portal/en/kb/articles/a"]))) = true.
Proof.
  assert (Hno : forall v rc, (fun (_ : string) (_ : nat) => Raised_before_save) v rc <> Saved_then_close_raised)
    by (intros v rc E; discriminate E).
  assert (Hnd : NoDup ["https://support.haltech.com/portal/en/kb/articles/a"])
    by (constructor; [intros [] | constructor]).
  split; [exact Hno|]. split; [exact Hnd|]. split; [split; vm_compute; reflexivity|].
  exact (proj1 (scrape_articles_partition_if_close_ok _ _ _ Hno Hnd) (or_introl eq_refl)).
Defined.

End SchedulerMoreClaims.


(* ================================================================== *)
(** ** [urlparse] after [urlunparse]: the facts behind C3 *)

Module UrlRoundTrip.
Import StrFacts NormalizeFacts FilenameFacts MoreStrFacts.







(** The parts of [urlunsplit(scheme, netloc, url, query, '')]. *)
Definition adj (url : string) : string :=
  if truthy url && negb (String.eqb (take 1 url) "/") then "/" ++ url else url.
Definition cond (scheme netloc url : string) : bool :=
  truthy netloc || (truthy scheme && mem scheme Url.uses_netloc
                    && negb (String.eqb (take 2 url) "//")).
Definition url1 (scheme netloc url : string) : string :=
  if cond scheme netloc url then "//" ++ netloc ++ adj url else url.
Definition body (scheme netloc url : string) : string :=
  if truthy scheme then scheme ++ ":" ++ url1 scheme netloc url else url1 scheme netloc url.





(** *** Strings *)










Lemma has_char_take (c : ascii) (n : nat) (s : string) :
  has_char c s = false -> has_char c (take n s) = false.
Proof.
  revert n. induction s as [|d s IH]; intros n H; destruct n; simpl in *; auto.
  apply orb_false_iff in H as [Hd Hs]. now rewrite Hd, IH.
Qed.







(** *** [_splitparams] *)




End UrlRoundTrip.

Module UrlRT2.
Import StrFacts NormalizeFacts FilenameFacts MoreStrFacts UrlRoundTrip.

(** *** Scheme names *)






Lemma colon_not_scheme : Url.is_scheme_char ":"%char = false.
Proof. reflexivity. Qed.








(** *** The steps of [urlsplit] *)






End UrlRT2.

Module UrlRT3.
Import StrFacts NormalizeFacts FilenameFacts MoreStrFacts UrlRoundTrip UrlRT2.


















End UrlRT3.

Module UrlRT4.
Import StrFacts NormalizeFacts FilenameFacts MoreStrFacts UrlRoundTrip UrlRT2 UrlRT3.

(** *** What [urlparse] returns *)


















End UrlRT4.

Module UrlRT5.
Import StrFacts NormalizeFacts FilenameFacts MoreStrFacts UrlRoundTrip UrlRT2 UrlRT3 UrlRT4.







End UrlRT5.

Module NormalizeIdem.
Import StrFacts NormalizeFacts FilenameFacts MoreStrFacts UrlRoundTrip UrlRT2 UrlRT3 UrlRT4 UrlRT5.










(** The exclusions are needed: each case loses one more character when
    normalised again, or no longer parses. *)
Lemma normalize_url_exclusions :
  normalize_url "https://support.haltech.com/a?/" None = Some "https://support.haltech.com/a?" /\
  normalize_url "https://support.haltech.com/a?" None = Some "https://support.haltech.com/a" /\
  normalize_url "https://support.haltech.com/a;/" None = Some "https://support.haltech.com/a;" /\
  normalize_url "https://support.haltech.com/a;" None = Some "https://support.haltech.com/a" /\
  normalize_url "/////h" None = Some "///h" /\
  normalize_url "///h" None = Some "/h" /\
  normalize_url "////[" None = Some "//[" /\
  normalize_url "//[" None = None.
Proof. vm_compute. repeat split. Qed.

End NormalizeIdem.
